(** * json5.lib: the decoder walk and the encoder of the JSON5 codec

    A shallow embedding of [src/json5/lib.py] (Python 3 semantics) and the
    properties of its decode/encode translation layer.

    - Python [str] values are sequences of Unicode code points: [list Z].
    - Containers ([dict], [list]) are objects with an identity: a value
      refers to them by address, and a heap binds addresses to contents,
      so that sharing and cycles are expressible.
    - Exceptions are an error result; the encoder instance's mutable
      attributes ([_seen_objs], [_indent_level]) are threaded explicitly. *)

From Stdlib Require Import ZArith List String Ascii Lia.
From Stdlib Require Import Floats.SpecFloat.
From stdpp Require Import base decidable option list gmap.

Set Warnings "-register-all".
Local Open Scope Z_scope.

(* ===================================================================== *)
(** ** Text *)
(* ===================================================================== *)

(** A Python 3 [str]: its code points, in order. *)
Definition pystr : Type := list Z.

(** [ord] of the characters of an ASCII literal. *)
Definition u (s : string) : pystr :=
  List.map (fun a => Z.of_N (N_of_ascii a)) (list_ascii_of_string s).

(** Module constants of lib.py, lines 121-123. *)
Definition squote : Z := 39.
Definition dquote : Z := 34.
Definition bslash : Z := 92.

(** [x in s] for a one-character [x]. *)
Definition char_in (c : Z) (s : pystr) : bool :=
  existsb (Z.eqb c) s.

(** [s.startswith(p)]. *)
Fixpoint startswith (p s : pystr) : bool :=
  match p, s with
  | [], _ => true
  | _ :: _, [] => false
  | a :: p', b :: s' => (a =? b) && startswith p' s'
  end.

(** [p in s] for strings: [p] occurs in [s] as a contiguous substring. *)
Fixpoint str_in (p s : pystr) : bool :=
  startswith p s ||
  match s with
  | [] => false
  | _ :: s' => str_in p s'
  end.

(** Lexicographic [<] on [str] (by code point), as [sorted] uses it. *)
Fixpoint str_lt (a b : pystr) : bool :=
  match a, b with
  | _, [] => false
  | [], _ :: _ => true
  | x :: a', y :: b' => (x <? y) || ((x =? y) && str_lt a' b')
  end.

(** *** Number formatting *)

Definition hex_digit (d : Z) : Z :=
  if d <? 10 then 48 + d else 87 + d.    (* '0'..'9', 'a'..'f' *)

Fixpoint hex_loop (fuel : nat) (n : Z) (acc : pystr) : pystr :=
  match fuel with
  | O => acc
  | S fuel' =>
      if n <? 16 then hex_digit n :: acc
      else hex_loop fuel' (n / 16) (hex_digit (n mod 16) :: acc)
  end.

(** ['%x' % n] for [n >= 0]: lower-case hexadecimal, no padding. *)
Definition hex (n : Z) : pystr :=
  hex_loop (S (Z.to_nat (Z.log2 n))) n [].

(** ['%04x' % n]: [hex n] padded on the left with ['0'] to a MINIMUM
    width of four; longer numerals are not truncated. *)
Definition fmt_04x (n : Z) : pystr :=
  let ds := hex n in
  List.repeat 48 (4 - List.length ds)%nat ++ ds.

Fixpoint dec_loop (fuel : nat) (n : Z) (acc : pystr) : pystr :=
  match fuel with
  | O => acc
  | S fuel' =>
      if n <? 10 then (48 + n) :: acc
      else dec_loop fuel' (n / 10) ((48 + n mod 10) :: acc)
  end.

(** [str(n)] for an [int]: decimal digits, ['-'] in front when negative. *)
Definition str_of_int (n : Z) : pystr :=
  let a := Z.abs n in
  let ds := dec_loop (S (Z.to_nat (Z.log2 a))) a [] in
  if n <? 0 then 45 :: ds else ds.

(* ===================================================================== *)
(** ** Native values *)
(* ===================================================================== *)

(** A Python [float]: IEEE 754 data, as the Standard Library specifies it. *)
Definition pyfloat : Type := spec_float.

(** The classes [type(obj)] can be. [TObject] stands for any class the
    encoder has no case for. *)
Inductive pytype : Type :=
  | TNoneType | TBool | TInt | TFloat | TStr | TBytes | TTuple
  | TDict | TList | TObject.

(** Hashable values, as they occur as [dict] keys. *)
Inductive key : Type :=
  | KStr (s : pystr)
  | KInt (n : Z)
  | KFloat (f : pyfloat)
  | KBool (b : bool)
  | KNone
  | KBytes (bs : list Z).

(** Values. [VRef a] is a reference to the object at address [a]; two
    occurrences of [VRef a] are the SAME object ([id(obj) = a]). *)
Inductive value : Type :=
  | VNone
  | VBool (b : bool)
  | VInt (n : Z)
  | VFloat (f : pyfloat)
  | VStr (s : pystr)
  | VBytes (bs : list Z)
  | VTuple (items : list value)
  | VRef (addr : nat).

(** Contents of a mutable container. A [dict] keeps its items in insertion
    order; its keys are pairwise distinct. *)
Inductive object : Type :=
  | ODict (items : list (key * value))
  | OList (els : list value).

Definition heap : Type := gmap nat object.

#[global] Instance pytype_eq_dec : EqDecision pytype.
Proof. solve_decision. Defined.

#[global] Instance spec_float_eq_dec : EqDecision spec_float.
Proof. solve_decision. Defined.

#[global] Instance key_eq_dec : EqDecision key.
Proof. solve_decision. Defined.

(** [type(obj)]. An address the heap does not bind holds an object of a
    class other than [dict] and [list]. *)
Definition type_of (h : heap) (obj : value) : pytype :=
  match obj with
  | VNone => TNoneType
  | VBool _ => TBool
  | VInt _ => TInt
  | VFloat _ => TFloat
  | VStr _ => TStr
  | VBytes _ => TBytes
  | VTuple _ => TTuple
  | VRef a =>
      match h !! a with
      | Some (ODict _) => TDict
      | Some (OList _) => TList
      | None => TObject
      end
  end.

Definition type_of_key (k : key) : pytype :=
  match k with
  | KStr _ => TStr
  | KInt _ => TInt
  | KFloat _ => TFloat
  | KBool _ => TBool
  | KNone => TNoneType
  | KBytes _ => TBytes
  end.

(** A key seen as a value (what an exception carries, what [+] receives). *)
Definition value_of_key (k : key) : value :=
  match k with
  | KStr s => VStr s
  | KInt n => VInt n
  | KFloat f => VFloat f
  | KBool b => VBool b
  | KNone => VNone
  | KBytes bs => VBytes bs
  end.

(* ===================================================================== *)
(** ** Exceptions and results *)
(* ===================================================================== *)

Inductive exn_class : Type :=
  | ValueError | TypeError | NameError | UnboundLocalError
  | RecursionError | KeyError.

(** What the exception was built from: the offending object, as in
    [raise ValueError(obj)], or the interpreter's message. *)
Inductive exn_arg : Type :=
  | ArgValue (v : value)
  | ArgMsg (m : string).

Inductive exn : Type :=
  | Exn (cls : exn_class) (arg : exn_arg).

Inductive result (A : Type) : Type :=
  | Ok (a : A)
  | Err (e : exn).
Arguments Ok {A} a.
Arguments Err {A} e.

Definition result_bind {A B} (r : result A) (k : A -> result B) : result B :=
  match r with
  | Ok a => k a
  | Err e => Err e
  end.

(** What a call of a Python function hands back when it does not raise:
    a [str], or [None] when control falls off the end of the body. *)
Inductive ret : Type :=
  | RStr (s : pystr)
  | RNone.

(* ===================================================================== *)
(** ** Built-ins: ordering of keys and [sorted] *)
(* ===================================================================== *)

(** A number as [<] sees it: [NFin m e] is [m * 2^e]. *)
Inductive num : Type :=
  | NNan
  | NInf (neg : bool)
  | NFin (m e : Z).

Definition num_of_float (f : pyfloat) : num :=
  match f with
  | S754_zero _ => NFin 0 0
  | S754_infinity s => NInf s
  | S754_nan => NNan
  | S754_finite s m e => NFin (if s then Z.neg m else Z.pos m) e
  end.

Definition num_of_key (k : key) : option num :=
  match k with
  | KInt n => Some (NFin n 0)
  | KBool b => Some (NFin (if b then 1 else 0) 0)
  | KFloat f => Some (num_of_float f)
  | _ => None
  end.

(** Exact [a < b] on numbers; every comparison with NaN is false. *)
Definition num_lt (a b : num) : bool :=
  match a, b with
  | NNan, _ | _, NNan => false
  | NInf na, NInf nb => na && negb nb
  | NInf na, NFin _ _ => na
  | NFin _ _, NInf nb => negb nb
  | NFin m1 e1, NFin m2 e2 =>
      let e := Z.min e1 e2 in
      m1 * 2 ^ (e1 - e) <? m2 * 2 ^ (e2 - e)
  end.

(** [a < b] between two keys; unorderable classes raise [TypeError]. *)
Definition key_lt (a b : key) : result bool :=
  match a, b with
  | KStr x, KStr y => Ok (str_lt x y)
  | KBytes x, KBytes y => Ok (str_lt x y)
  | _, _ =>
      match num_of_key a, num_of_key b with
      | Some x, Some y => Ok (num_lt x y)
      | _, _ => Err (Exn TypeError (ArgMsg "'<' not supported between instances"))
      end
  end.

(** Stable insertion: [x] goes before the first element it is less than. *)
Fixpoint sorted_insert (x : key) (l : list key) : result (list key) :=
  match l with
  | [] => Ok [x]
  | y :: l' =>
      result_bind (key_lt x y) (fun lt =>
        if lt : bool then Ok (x :: y :: l')
        else result_bind (sorted_insert x l') (fun r => Ok (y :: r)))
  end.

(** [sorted(keys)]. *)
Definition sorted (keys : list key) : result (list key) :=
  fold_left (fun acc x => result_bind acc (sorted_insert x)) keys (Ok []).

(** [obj[k]] on the items of a [dict]. *)
Fixpoint dict_getitem (items : list (key * value)) (k : key) : result value :=
  match items with
  | [] => Err (Exn KeyError (ArgValue (value_of_key k)))
  | (k', v) :: items' =>
      if decide (k' = k) then Ok v else dict_getitem items' k
  end.

(** *** The pattern [\W]

    [re.compile('\W').search(s)] on a [str]: is there a character that is
    not a word character?  A word character is alphanumeric or ['_'].  For
    code points above U+007F, "alphanumeric" is a lookup in the
    interpreter's Unicode database, which the model takes as given. *)
Definition is_word_char (unicode_isalnum : Z -> bool) (c : Z) : bool :=
  if c <? 128 then
    ((48 <=? c) && (c <=? 57))       (* 0-9 *)
    || ((65 <=? c) && (c <=? 90))    (* A-Z *)
    || ((97 <=? c) && (c <=? 122))   (* a-z *)
    || (c =? 95)                     (* _ *)
  else unicode_isalnum c.

Definition re_nonword_search (unicode_isalnum : Z -> bool) (s : pystr) : bool :=
  existsb (fun c => negb (is_word_char unicode_isalnum c)) s.

(** The part of the interpreter the model does not compute: the Unicode
    database behind [\w], and the built-in [float] (decimal text to
    binary64) and [bytes.decode].  They are consulted only where an
    instance is constructed with its defaults, and on [bytes] input. *)
Record runtime : Type := {
  unicode_isalnum : Z -> bool;
  py_float : pystr -> result pyfloat;
  bytes_decode : list Z -> pystr -> result pystr
}.

(* ===================================================================== *)
(** ** class _Encoder *)
(* ===================================================================== *)

Module _Encoder.

(** Keyword arguments of [__init__] (lib.py 128-132), each at the value the
    call binds it to.  [cls] is absent: the constructor asserts it is
    [None]. *)
Record kwargs : Type := {
  kw_skipkeys : bool;
  kw_ensure_ascii : bool;
  kw_check_circular : bool;
  kw_allow_nan : bool;
  kw_indent : option Z;
  kw_separators : option (pystr * pystr);
  kw_encoding : pystr;
  kw_default : option (value -> result value);
  kw_sort_keys : bool
}.

(** The declared defaults of the signature. *)
Definition no_kwargs : kwargs := {|
  kw_skipkeys := false;
  kw_ensure_ascii := true;
  kw_check_circular := true;
  kw_allow_nan := true;
  kw_indent := None;
  kw_separators := None;
  kw_encoding := u "utf-8";
  kw_default := None;
  kw_sort_keys := false
|}.

(** The attributes [dumps] only reads. *)
Record t : Type := {
  skipkeys : bool;
  ensure_ascii : bool;
  check_circular : bool;
  allow_nan : bool;
  indent : option Z;
  encoding : pystr;
  default : value -> result value;
  sort_keys : bool;
  _comma : pystr;
  _colon : pystr;
  _notletter : pystr -> bool;          (* the compiled pattern's [search] *)
  _valid_key_types : list pytype
}.

(** The attributes [dumps] assigns. *)
Record state : Type := {
  _seen_objs : gset nat;
  _indent_level : Z
}.

(** Computations of the instance: they read and write [state], and return
    or raise.  The state survives an exception, as the attributes do. *)
Definition M (A : Type) : Type := state -> result A * state.

Definition pure {A} (a : A) : M A := fun st => (Ok a, st).
Definition raise {A} (c : exn_class) (a : exn_arg) : M A :=
  fun st => (Err (Exn c a), st).
Definition bind {A B} (m : M A) (k : A -> M B) : M B :=
  fun st =>
    match m st with
    | (Ok a, st') => k a st'
    | (Err e, st') => (Err e, st')
    end.
Definition lift {A} (r : result A) : M A := fun st => (r, st).
Definition get : M state := fun st => (Ok st, st).
Definition put (st : state) : M unit := fun _ => (Ok tt, st).

Notation "x <- m ;; k" := (bind m (fun x => k))
  (at level 100, m at next level, right associativity).
Notation "m ;;; k" := (bind m (fun _ => k))
  (at level 100, right associativity).

(** [_default] (lib.py 155-156). *)
Definition _default (obj : value) : M ret :=
  raise TypeError (ArgValue obj).

(** [__init__] (lib.py 128-153). *)
Definition init (rt : runtime) (kw : kwargs) : t * state :=
  let seps :=
    match kw_separators kw with
    | Some sep => sep
    | None => (u ", ", u ": ")
    end in
  ({| skipkeys := kw_skipkeys kw;
      ensure_ascii := kw_ensure_ascii kw;
      check_circular := kw_check_circular kw;
      allow_nan := kw_allow_nan kw;
      indent := kw_indent kw;
      encoding := kw_encoding kw;
      default :=
        match kw_default kw with
        | Some f => f
        | None => fun obj => Err (Exn TypeError (ArgValue obj))
        end;
      sort_keys := kw_sort_keys kw;
      _comma := fst seps;
      _colon := snd seps;
      _notletter := re_nonword_search (unicode_isalnum rt);
      _valid_key_types := [TStr; TInt; TFloat; TBool; TNoneType] |},
   {| _seen_objs := ∅; _indent_level := 0 |}).

(** [_esc_char] (lib.py 175-184). *)
Definition _esc_char (ch : Z) (esc_squote esc_dquote : bool) : pystr :=
  let o := ch in
  if (ch =? dquote) && esc_dquote then [bslash; dquote]
  else if (ch =? squote) && esc_squote then [bslash; squote]
  else if (32 <=? o) && (o <? 128) then [ch]
  else u "\u" ++ fmt_04x o.

(** [_esc_str] (lib.py 167-173). *)
Definition _esc_str (self : t) (s : pystr) (esc_squote esc_dquote : bool)
  : pystr :=
  if negb (ensure_ascii self) then s
  else concat (List.map (fun ch => _esc_char ch esc_squote esc_dquote) s).

(** [_esc_key] (lib.py 158-165).  The pattern's [search] accepts a [str]
    only; any other argument makes it raise [TypeError]. *)
Definition _esc_key (self : t) (k : key) : result pystr :=
  match k with
  | KStr k =>
      if _notletter self k then
        if negb (char_in squote k)
        then Ok (squote :: _esc_str self k true false ++ [squote])
        else Ok (dquote :: _esc_str self k false true ++ [dquote])
      else Ok k
  | _ => Err (Exn TypeError (ArgMsg "expected string or bytes-like object"))
  end.

(** [a + b] where [a] is a [str] and [b] the result of a call. *)
Definition str_add (a : pystr) (b : ret) : result pystr :=
  match b with
  | RStr s => Ok (a ++ s)
  | RNone => Err (Exn TypeError (ArgMsg "can only concatenate str to str"))
  end.

(** The global name [math]: lib.py imports [collections], [re], [json]
    and [sys] only, so looking the name up raises [NameError]. *)
Definition math_isnan (obj : pyfloat) : M bool :=
  raise NameError (ArgMsg "name 'math' is not defined").
Definition math_isinf (obj : pyfloat) : M bool :=
  raise NameError (ArgMsg "name 'math' is not defined").

(** [if id(obj) in self._seen_objs: raise ValueError(obj)] followed by
    [self._seen_objs.add(id(obj))] (lib.py 206-209 and 237-240). *)
Definition check_seen (self : t) (addr : nat) : M unit :=
  if check_circular self then
    st <- get ;;
    if decide (addr ∈ _seen_objs st) then raise ValueError (ArgValue (VRef addr))
    else put {| _seen_objs := {[ addr ]} ∪ _seen_objs st;
                _indent_level := _indent_level st |}
  else pure tt.

(** [self._indent_level += d]. *)
Definition add_indent_level (d : Z) : M unit :=
  st <- get ;;
  put {| _seen_objs := _seen_objs st; _indent_level := _indent_level st + d |}.

(** The local [indent] after lib.py 217-220 (243-247).  The augmented
    assignment reads the local before any assignment to it. *)
Definition local_indent (self : t) : M pystr :=
  match indent self with
  | Some _ => raise UnboundLocalError (ArgMsg "local variable 'indent' referenced before assignment")
  | None => pure []
  end.

Section Loops.
(** The recursive call [self.dumps], one frame deeper. *)
Variable rec : value -> M ret.
Variable self : t.
Variable indent_ : pystr.

(** The loop of lib.py 223-230 from index [i] on. *)
Fixpoint dict_loop (items : list (key * value)) (num_keys : Z)
    (i : Z) (keys : list key) (s : pystr) : M pystr :=
  match keys with
  | [] => pure s
  | k :: keys' =>
      if negb (bool_decide (type_of_key k ∈ _valid_key_types self)) then
        if skipkeys self then dict_loop items num_keys (i + 1) keys' s
        else raise TypeError (ArgValue (value_of_key k))
      else
        ek <- lift (_esc_key self k) ;;
        v <- lift (dict_getitem items k) ;;
        r <- rec v ;;
        piece <- lift (str_add (ek ++ _colon self) r) ;;
        let s := s ++ piece in
        let s := if i <? num_keys then s ++ _comma self ++ indent_ else s in
        dict_loop items num_keys (i + 1) keys' s
  end.

(** The loop of lib.py 250-253 from index [i] on. *)
Fixpoint list_loop (num_els : Z) (i : Z) (els : list value) (s : pystr)
    : M pystr :=
  match els with
  | [] => pure s
  | el :: els' =>
      r <- rec el ;;
      s <- lift (str_add s r) ;;
      let s := if i <? num_els then s ++ _comma self ++ indent_ else s in
      list_loop num_els (i + 1) els' s
  end.
End Loops.

(** [dumps] (lib.py 186-259).  [fuel] is the number of nested calls the
    interpreter still allows; at none left the call raises
    [RecursionError]. *)
Fixpoint dumps (fuel : nat) (self : t) (h : heap) (obj : value) : M ret :=
  match fuel with
  | O => raise RecursionError (ArgMsg "maximum recursion depth exceeded")
  | S fuel' =>
      match obj with
      | VBool true => pure (RStr (u "true"))
      | VBool false => pure (RStr (u "false"))
      | VNone => pure (RStr (u "null"))
      | VStr s =>
          let has_single_quote := char_in squote s in
          if negb has_single_quote
          then pure (RStr (squote :: _esc_str self s true false ++ [squote]))
          else pure (RStr (dquote :: _esc_str self s false true ++ [dquote]))
      | VFloat f =>
          (* not self.allow_nan and math.isnan(obj) or math.isinf(obj) *)
          a <- (if negb (allow_nan self) then math_isnan f else pure false) ;;
          c <- (if a : bool then pure true else math_isinf f) ;;
          if c : bool then raise ValueError (ArgValue obj)
          else pure RNone
      | VInt n => pure (RStr (str_of_int n))
      | VRef addr =>
          match h !! addr with
          | Some (ODict items) =>
              check_seen self addr ;;;
              let keys := List.map fst items in
              keys <- (if sort_keys self then lift (sorted keys) else pure keys) ;;
              let num_keys := Z.of_nat (List.length keys) - 1 in
              add_indent_level 1 ;;;
              indent_ <- local_indent self ;;
              let s := u "{" ++ indent_ in
              s <- dict_loop (dumps fuel' self h) self indent_
                     items num_keys 0 keys s ;;
              let s := s ++ u "}" in
              add_indent_level (-1) ;;;
              pure (RStr s)
          | Some (OList els) =>
              check_seen self addr ;;;
              let num_els := Z.of_nat (List.length els) - 1 in
              add_indent_level 1 ;;;
              indent_ <- local_indent self ;;
              let s := u "[" ++ indent_ in
              s <- list_loop (dumps fuel' self h) self indent_ num_els 0 els s ;;
              let s := s ++ u "]" in
              add_indent_level (-1) ;;;
              pure (RStr s)
          | None => _default obj ;;; pure RNone
          end
      | VBytes _ | VTuple _ => _default obj ;;; pure RNone
      end
  end.

End _Encoder.

(* ===================================================================== *)
(** ** Module-level [dumps] *)
(* ===================================================================== *)

(** The keyword arguments of the entry point: the two it pops, when
    given, and the rest. *)
Record dumps_kwargs : Type := {
  compact : option bool;
  as_json : option bool;
  kwargs : _Encoder.kwargs
}.

(** How the entry point produces its result: by the call
    [json.dumps] of the standard library's strict serializer on [obj] and
    the remaining keyword arguments, or by the result of [dumps] of a new
    [_Encoder] constructed from them. *)
Inductive outcome : Type :=
  | Json_dumps (obj : value) (kw : _Encoder.kwargs)
  | Encoder_dumps (r : result ret).

(** [dumps] (lib.py 105-112); [limit] is the interpreter's recursion
    limit. *)
Definition dumps (rt : runtime) (limit : nat) (kw : dumps_kwargs)
    (h : heap) (obj : value) : outcome :=
  let compact := from_option id false (compact kw) in
  let as_json := from_option id (negb compact) (as_json kw) in
  if as_json then Json_dumps obj (kwargs kw)
  else
    let '(self, st) := _Encoder.init rt (kwargs kw) in
    Encoder_dumps (fst (_Encoder.dumps limit self h obj st)).

(* ===================================================================== *)
(** ** Built-ins: [int] and [str.replace] *)
(* ===================================================================== *)

(** The value of a digit character, for bases up to 36. *)
Definition digit_val (c : Z) : option Z :=
  if (48 <=? c) && (c <=? 57) then Some (c - 48)
  else if (97 <=? c) && (c <=? 122) then Some (c - 87)
  else if (65 <=? c) && (c <=? 90) then Some (c - 55)
  else None.

Fixpoint digits_val (base : Z) (acc : Z) (s : pystr) : option Z :=
  match s with
  | [] => Some acc
  | c :: s' =>
      match digit_val c with
      | Some d => if d <? base then digits_val base (base * acc + d) s' else None
      | None => None
      end
  end.

(** [int(s)] and [int(s, base=b)] on numerals of the form
    sign? prefix? digit+, where the prefix [0x]/[0X] is accepted for base
    16.  (Surrounding white space, digit-group underscores and non-ASCII
    digits, which [int] also accepts, do not occur in number literals and
    are not modelled: such text is rejected here.) *)
Definition py_int (s : pystr) (base : option Z) : result Z :=
  let b := from_option id 10 base in
  let '(neg, body) :=
    match s with
    | 45 :: r => (true, r)
    | 43 :: r => (false, r)
    | _ => (false, s)
    end in
  let body :=
    if (b =? 16) && (startswith (u "0x") body || startswith (u "0X") body)
    then drop 2 body else body in
  match body, digits_val b 0 body with
  | _ :: _, Some n => Ok (if neg : bool then - n else n)
  | _, _ => Err (Exn ValueError (ArgMsg "invalid literal for int()"))
  end.

(** [s.replace(old, new)] for a non-empty [old]; [skip] counts the
    characters of a match still to be dropped. *)
Fixpoint replace_from (old new : pystr) (skip : nat) (s : pystr) : pystr :=
  match s with
  | [] => []
  | c :: s' =>
      match skip with
      | S n => replace_from old new n s'
      | O =>
          if startswith old s
          then new ++ replace_from old new (List.length old - 1)%nat s'
          else c :: replace_from old new O s'
      end
  end.

Definition str_replace (old new s : pystr) : pystr :=
  replace_from old new O s.

(* ===================================================================== *)
(** ** class _Decoder *)
(* ===================================================================== *)

Module _Decoder.

(** The node types whose payload [walk] returns as it is. *)
Inductive leaf_type : Type := null | true_ | false_ | string_.

(** The parser's syntax tree: pairs [(node_type, node_val)]. *)
Inductive node : Type :=
  | Leaf (node_type : leaf_type) (node_val : value)
  | Number (node_val : pystr)
  | Object (node_val : list (pystr * node))
  | Array (node_val : list node).

(** Decoding builds fresh containers: computations allocate in a heap and
    return or raise. *)
Definition D (A : Type) : Type := heap -> result (A * heap).

Definition pure {A} (a : A) : D A := fun h => Ok (a, h).
Definition bind {A B} (m : D A) (k : A -> D B) : D B :=
  fun h =>
    match m h with
    | Ok (a, h') => k a h'
    | Err e => Err e
    end.
Definition lift {A} (r : result A) : D A :=
  fun h => result_bind r (fun a => Ok (a, h)).

(** A new object: it gets an address no object of the heap has. *)
Definition alloc (o : object) : D value :=
  fun h => let a := fresh (dom h) in Ok (VRef a, <[ a := o ]> h).

Notation "x <- m ;; k" := (bind m (fun x => k))
  (at level 100, m at next level, right associativity).

(** The attributes of an instance. *)
Record t : Type := {
  encoding : pystr;
  parse_float : pystr -> D value;
  parse_int : pystr -> option Z -> D value;
  parse_constant : pystr -> D value;
  object_pairs_hook : list (pystr * value) -> D value
}.

(** Keyword arguments of [__init__] (lib.py 43-45), [None] when not
    given.  [cls] is absent: the constructor asserts it is [None]. *)
Record kwargs : Type := {
  kw_encoding : option pystr;
  kw_object_hook : option (value -> D value);
  kw_parse_float : option (pystr -> D value);
  kw_parse_int : option (pystr -> option Z -> D value);
  kw_parse_constant : option (pystr -> D value);
  kw_object_pairs_hook : option (list (pystr * value) -> D value)
}.

Definition no_kwargs : kwargs := {|
  kw_encoding := None;
  kw_object_hook := None;
  kw_parse_float := None;
  kw_parse_int := None;
  kw_parse_constant := None;
  kw_object_pairs_hook := None
|}.

(** The built-ins as hooks. *)
Definition float_ (rt : runtime) (s : pystr) : D value :=
  lift (result_bind (py_float rt s) (fun f => Ok (VFloat f))).

Definition int_ (s : pystr) (base : option Z) : D value :=
  lift (result_bind (py_int s base) (fun n => Ok (VInt n))).

(** [d[k] = v]: a key already present keeps its place. *)
Fixpoint dict_setitem (items : list (key * value)) (k : key) (v : value)
    : list (key * value) :=
  match items with
  | [] => [(k, v)]
  | (k', v') :: items' =>
      if decide (k' = k) then (k', v) :: items'
      else (k', v') :: dict_setitem items' k v
  end.

(** [dict(pairs)]. *)
Definition dict_ (pairs : list (pystr * value)) : D value :=
  alloc (ODict (fold_left (fun d kv => dict_setitem d (KStr (fst kv)) (snd kv))
                  pairs [])).

(** The method [parse_constant] (lib.py 61-62). *)
Definition parse_constant_ (rt : runtime) (s : pystr) : D value :=
  float_ rt (str_replace (u "NaN") (u "nan")
               (str_replace (u "Infinity") (u "inf") s)).

(** [__init__] (lib.py 43-59). *)
Definition init (rt : runtime) (kw : kwargs) : t := {|
  encoding := from_option id (u "utf-8") (kw_encoding kw);
  parse_float := from_option id (float_ rt) (kw_parse_float kw);
  parse_int := from_option id int_ (kw_parse_int kw);
  parse_constant := from_option id (parse_constant_ rt) (kw_parse_constant kw);
  object_pairs_hook :=
    match kw_object_pairs_hook kw with
    | Some hook => hook
    | None =>
        match kw_object_hook kw with
        | Some object_hook => fun pairs => d <- dict_ pairs ;; object_hook d
        | None => dict_
        end
    end
|}.

(** [walk] (lib.py 82-101). *)
Fixpoint walk (self : t) (ast_node : node) : D value :=
  match ast_node with
  | Leaf _ node_val => pure node_val
  | Number node_val =>
      if startswith (u "0x") node_val || startswith (u "0X") node_val then
        parse_int self node_val (Some 16)
      else if char_in 46 node_val || char_in 101 node_val
              || char_in 69 node_val then
        parse_float self node_val
      else if str_in (u "Infinity") node_val || str_in (u "NaN") node_val then
        parse_constant self node_val
      else
        parse_int self node_val None
  | Object node_val =>
      pairs <-
        (fix walk_pairs (l : list (pystr * node)) : D (list (pystr * value)) :=
           match l with
           | [] => pure []
           | (key, val) :: l' =>
               v <- walk self val ;;
               r <- walk_pairs l' ;;
               pure ((key, v) :: r)
           end) node_val ;;
      object_pairs_hook self pairs
  | Array node_val =>
      els <-
        (fix walk_els (l : list node) : D (list value) :=
           match l with
           | [] => pure []
           | el :: l' =>
               v <- walk self el ;;
               r <- walk_els l' ;;
               pure (v :: r)
           end) node_val ;;
      alloc (OList els)
  end.

(** What [loads] accepts: text, or bytes to be decoded first. *)
Inductive input : Type :=
  | Text (s : pystr)
  | Bytes (bs : list Z).

(** [loads] (lib.py 64-80).  [parse s] stands for
    [Parser(s, '<string>').parse()] of the module [parser]: the tree and
    the error message, if any. *)
Definition loads (rt : runtime) (parse : pystr -> node * option string)
    (self : t) (s : input) : D value :=
  s <- match s with
       | Text s => pure s
       | Bytes bs => lift (bytes_decode rt bs (encoding self))
       end ;;
  match s with
  | [] => lift (Err (Exn ValueError (ArgMsg "Empty strings are not legal JSON5")))
  | _ :: _ =>
      let '(ast, err) := parse s in
      match err with
      | Some err => lift (Err (Exn ValueError (ArgMsg err)))
      | None => walk self ast
      end
  end.

End _Decoder.

(* ===================================================================== *)
(** ** Vocabulary of the specification *)
(* ===================================================================== *)

(** *** Numeric classification (spec, section 3) *)

Inductive number_kind : Type :=
  | HexInteger | Float | Constant | Integer.

(** "a literal with prefix 0x or 0X" *)
Definition hex_prefixed (lit : pystr) : Prop :=
  exists rest, lit = u "0x" ++ rest \/ lit = u "0X" ++ rest.

(** "contains '.' or an exponent marker" *)
Definition has_dot_or_exponent (lit : pystr) : Prop :=
  46 ∈ lit \/ 101 ∈ lit \/ 69 ∈ lit.

(** "one of the special constant tokens Infinity/NaN", with whatever
    sign the literal carries around the token. *)
Definition names_constant (lit : pystr) : Prop :=
  exists pre post,
    lit = pre ++ u "Infinity" ++ post \/ lit = pre ++ u "NaN" ++ post.

(** The syntactic class of a number literal. *)
Inductive number_class (lit : pystr) : number_kind -> Prop :=
  | class_hex :
      hex_prefixed lit -> number_class lit HexInteger
  | class_float :
      ~ hex_prefixed lit -> has_dot_or_exponent lit ->
      number_class lit Float
  | class_constant :
      ~ hex_prefixed lit -> ~ has_dot_or_exponent lit -> names_constant lit ->
      number_class lit Constant
  | class_integer :
      ~ hex_prefixed lit -> ~ has_dot_or_exponent lit -> ~ names_constant lit ->
      number_class lit Integer.

(** The hook a literal of each class is handed to. *)
Definition decode_as (self : _Decoder.t) (c : number_kind) (lit : pystr)
  : _Decoder.D value :=
  match c with
  | HexInteger => _Decoder.parse_int self lit (Some 16)
  | Float => _Decoder.parse_float self lit
  | Constant => _Decoder.parse_constant self lit
  | Integer => _Decoder.parse_int self lit None
  end.

(** *** Quote selection and escaping (spec, section 4.2) *)

(** The quote character a string is wrapped in. *)
Definition wrapping (s : pystr) (q : Z) : Prop :=
  ((squote ∉ s) /\ q = squote) \/ ((squote ∈ s) /\ q = dquote).

(** The four hexadecimal digits of a code point below 0x10000. *)
Definition u4 (c : Z) : pystr :=
  [hex_digit (c / 4096); hex_digit (c / 256 mod 16);
   hex_digit (c / 16 mod 16); hex_digit (c mod 16)].

(** How the spec's sentence has one character of a string appear between
    the quotes [q]: neither quote character is ever escaped, and with
    ascii-only every character outside 32-127 is a backslash, [u] and
    four digits. *)
Inductive renders_stated (ascii_only : bool) (q : Z) (c : Z) : pystr -> Prop :=
  | stated_quote :
      c = squote \/ c = dquote ->
      renders_stated ascii_only q c [c]
  | stated_verbatim :
      ascii_only = false ->
      renders_stated ascii_only q c [c]
  | stated_printable :
      ascii_only = true -> 32 <= c < 128 ->
      renders_stated ascii_only q c [c]
  | stated_escape d3 d2 d1 d0 :
      ascii_only = true -> ~ 32 <= c < 128 ->
      renders_stated ascii_only q c [bslash; 117; d3; d2; d1; d0].

(** How the encoder has it appear.  It differs in two places: inside
    double quotes, with ascii-only, a double quote is preceded by a
    backslash; and nothing is said of code points above 0xFFFF. *)
Inductive renders (ascii_only : bool) (q : Z) (c : Z) : pystr -> Prop :=
  | renders_verbatim :
      ascii_only = false ->
      renders ascii_only q c [c]
  | renders_other_quote :
      ascii_only = true -> c = squote \/ c = dquote -> c <> q ->
      renders ascii_only q c [c]
  | renders_wrapping_dquote :
      ascii_only = true -> c = dquote -> q = dquote ->
      renders ascii_only q c [bslash; dquote]
  | renders_printable :
      ascii_only = true -> 32 <= c < 128 -> c <> squote -> c <> dquote ->
      renders ascii_only q c [c]
  | renders_escape :
      ascii_only = true -> 0 <= c < 32 \/ 128 <= c <= 65535 ->
      renders ascii_only q c (bslash :: 117 :: u4 c)
  | renders_unconstrained piece :
      ascii_only = true -> c < 0 \/ 65535 < c ->
      renders ascii_only q c piece.

(** The spec's sentence on strings, for one encoder, string and output. *)
Definition string_rule_stated (self : _Encoder.t) (s : pystr) (r : result ret)
  : Prop :=
  exists q pieces,
    wrapping s q /\
    Forall2 (renders_stated (_Encoder.ensure_ascii self) q) s pieces /\
    r = Ok (RStr (q :: concat pieces ++ [q])).

(** *** The entry point's "compact" mode (spec, section 6) *)

(** The spec's sentence: selecting compact delegates to the strict
    serializer. *)
Definition compact_delegates (rt : runtime) (limit : nat) (kw : dumps_kwargs)
    (h : heap) (obj : value) : Prop :=
  compact kw = Some true ->
  exists kw', dumps rt limit kw h obj = Json_dumps obj kw'.

(* ===================================================================== *)
(** ** Inputs of the examples *)
(* ===================================================================== *)

(** A runtime for the examples, which use ASCII keys only and never reach
    [float] or [bytes.decode]: its Unicode database lists no alphanumeric
    character above U+007F, and the two conversions reject their input. *)
Definition ascii_runtime : runtime := {|
  unicode_isalnum := fun _ => false;
  py_float := fun _ => Err (Exn ValueError (ArgMsg "could not convert string to float"));
  bytes_decode := fun _ _ => Err (Exn ValueError (ArgMsg "codec can't decode"))
|}.

(** [_Encoder()] and [_Encoder(indent=2)], with their initial state. *)
Definition encoder0 : _Encoder.t := fst (_Encoder.init ascii_runtime _Encoder.no_kwargs).
Definition state0 : _Encoder.state := snd (_Encoder.init ascii_runtime _Encoder.no_kwargs).

Definition kwargs_indent2 : _Encoder.kwargs := {|
  _Encoder.kw_skipkeys := false;
  _Encoder.kw_ensure_ascii := true;
  _Encoder.kw_check_circular := true;
  _Encoder.kw_allow_nan := true;
  _Encoder.kw_indent := Some 2;
  _Encoder.kw_separators := None;
  _Encoder.kw_encoding := u "utf-8";
  _Encoder.kw_default := None;
  _Encoder.kw_sort_keys := false
|}.

(** [_Encoder(default=lambda o: 'x')]. *)
Definition kwargs_hook : _Encoder.kwargs := {|
  _Encoder.kw_skipkeys := false;
  _Encoder.kw_ensure_ascii := true;
  _Encoder.kw_check_circular := true;
  _Encoder.kw_allow_nan := true;
  _Encoder.kw_indent := None;
  _Encoder.kw_separators := None;
  _Encoder.kw_encoding := u "utf-8";
  _Encoder.kw_default := Some (fun _ => Ok (VStr (u "x")));
  _Encoder.kw_sort_keys := false
|}.

(** [_Decoder()]. *)
Definition decoder0 : _Decoder.t := _Decoder.init ascii_runtime _Decoder.no_kwargs.

(** The float 1.5 = 3 * 2^-1. *)
Definition one_and_a_half : pyfloat := S754_finite false 3 (-1).

(** [a = []; v = [a, a]]: [v] at address 1, [a] at address 2. *)
Definition heap_siblings : heap :=
  <[ 1%nat := OList [VRef 2; VRef 2] ]> (<[ 2%nat := OList [] ]> ∅).

(** [v = []; v.append(v)]: [v] at address 1. *)
Definition heap_self : heap :=
  <[ 1%nat := OList [VRef 1] ]> ∅.

(** [{'a': 1}] at address 1. *)
Definition heap_a1 : heap :=
  <[ 1%nat := ODict [(KStr (u "a"), VInt 1)] ]> ∅.

(** [{1: 'a'}] at address 1. *)
Definition heap_int_key : heap :=
  <[ 1%nat := ODict [(KInt 1, VStr (u "a"))] ]> ∅.

(** [[1]] at address 1. *)
Definition heap_list1 : heap :=
  <[ 1%nat := OList [VInt 1] ]> ∅.

(** [dumps(obj, compact=True)]. *)
Definition kwargs_compact : dumps_kwargs := {|
  compact := Some true;
  as_json := None;
  kwargs := _Encoder.no_kwargs
|}.

(* ===================================================================== *)
(** ** Vocabulary of the invariants *)
(* ===================================================================== *)

(** [sep.join(l)]. *)
Fixpoint join (sep : pystr) (l : list pystr) : pystr :=
  match l with
  | [] => []
  | t :: l' =>
      match l' with
      | [] => t
      | _ :: _ => t ++ sep ++ join sep l'
      end
  end.

(** What a computation of the encoder does to the instance: the set of
    seen objects only grows, and when the computation returns, the
    nesting level has moved by [d] and the result satisfies [Q]. *)
Definition keeps {A} (m : _Encoder.M A) (d : Z) (Q : A -> Prop) : Prop :=
  forall st,
    _Encoder._seen_objs st ⊆ _Encoder._seen_objs (snd (m st)) /\
    forall a, fst (m st) = Ok a ->
      _Encoder._indent_level (snd (m st)) = _Encoder._indent_level st + d /\
      Q a.




(** The list case of [dumps] after the circular check (lib.py 241-257),
    as a function of the recursive call. *)
Definition list_body (rec : value -> _Encoder.M ret) (self : _Encoder.t)
    (els : list value) : _Encoder.M ret :=
  let num_els := Z.of_nat (List.length els) - 1 in
  _Encoder.bind (_Encoder.add_indent_level 1) (fun _ =>
  _Encoder.bind (_Encoder.local_indent self) (fun indent_ =>
  let s := u "[" ++ indent_ in
  _Encoder.bind (_Encoder.list_loop rec self indent_ num_els 0 els s) (fun s =>
  let s := s ++ u "]" in
  _Encoder.bind (_Encoder.add_indent_level (-1)) (fun _ =>
  _Encoder.pure (RStr s))))).

(** The dict case of [dumps] after the circular check (lib.py 211-234). *)
Definition dict_body (rec : value -> _Encoder.M ret) (self : _Encoder.t)
    (items : list (key * value)) : _Encoder.M ret :=
  let keys := List.map fst items in
  _Encoder.bind
    (if _Encoder.sort_keys self then _Encoder.lift (sorted keys)
     else _Encoder.pure keys) (fun keys =>
  let num_keys := Z.of_nat (List.length keys) - 1 in
  _Encoder.bind (_Encoder.add_indent_level 1) (fun _ =>
  _Encoder.bind (_Encoder.local_indent self) (fun indent_ =>
  let s := u "{" ++ indent_ in
  _Encoder.bind
    (_Encoder.dict_loop rec self indent_ items num_keys 0 keys s) (fun s =>
  let s := s ++ u "}" in
  _Encoder.bind (_Encoder.add_indent_level (-1)) (fun _ =>
  _Encoder.pure (RStr s)))))).

(** [_Encoder(check_circular=False)]. *)
Definition kwargs_unchecked : _Encoder.kwargs := {|
  _Encoder.kw_skipkeys := false;
  _Encoder.kw_ensure_ascii := true;
  _Encoder.kw_check_circular := false;
  _Encoder.kw_allow_nan := true;
  _Encoder.kw_indent := None;
  _Encoder.kw_separators := None;
  _Encoder.kw_encoding := u "utf-8";
  _Encoder.kw_default := None;
  _Encoder.kw_sort_keys := false
|}.

(** [[1, 'a', None]] at address 1. *)
Definition heap_scalars : heap :=
  <[ 1%nat := OList [VInt 1; VStr (u "a"); VNone] ]> ∅.

(** [{'a': 1, 'b c': True}] at address 1. *)
Definition heap_two_keys : heap :=
  <[ 1%nat := ODict [(KStr (u "a"), VInt 1); (KStr (u "b c"), VBool true)] ]> ∅.

(** An element of a container that encodes to [t] in a frame of [dumps]
    with [fuel] nested calls left, from any state and without changing
    it: a scalar, or a container when the circular check is off. *)
Definition encodes_to (fuel : nat) (self : _Encoder.t) (h : heap)
    (el : value) (t : pystr) : Prop :=
  forall st, _Encoder.dumps fuel self h el st = (Ok (RStr t), st).

(** An item of a dict and the text of its entry: the key as [_esc_key]
    renders it, the key separator, the text of the value. *)
Definition entry_of (fuel : nat) (self : _Encoder.t) (h : heap)
    (item : key * value) (p : pystr) : Prop :=
  exists ek t,
    type_of_key (fst item) ∈ _Encoder._valid_key_types self /\
    _Encoder._esc_key self (fst item) = Ok ek /\
    encodes_to fuel self h (snd item) t /\
    p = ek ++ _Encoder._colon self ++ t.

(** A lower-case hexadecimal digit character. *)
Definition hexchar (c : Z) : Prop :=
  48 <= c <= 57 \/ 97 <= c <= 102.


(** A decoding computation only adds objects: every object of the heap
    it starts from is in the heap it ends with, unchanged. *)
Definition extends_heap {A} (m : _Decoder.D A) : Prop :=
  forall (h : heap) (a : A) (h' : heap), m h = Ok (a, h') -> h ⊆ h'.

(** All four hooks of a decoder only add objects. *)
Definition hooks_extend (self : _Decoder.t) : Prop :=
  (forall s, extends_heap (_Decoder.parse_float self s)) /\
  (forall s base, extends_heap (_Decoder.parse_int self s base)) /\
  (forall s, extends_heap (_Decoder.parse_constant self s)) /\
  (forall pairs, extends_heap (_Decoder.object_pairs_hook self pairs)).

(** [_Encoder(skipkeys=True)]. *)
Definition kwargs_skipkeys : _Encoder.kwargs := {|
  _Encoder.kw_skipkeys := true;
  _Encoder.kw_ensure_ascii := true;
  _Encoder.kw_check_circular := true;
  _Encoder.kw_allow_nan := true;
  _Encoder.kw_indent := None;
  _Encoder.kw_separators := None;
  _Encoder.kw_encoding := u "utf-8";
  _Encoder.kw_default := None;
  _Encoder.kw_sort_keys := false
|}.

(** [{'a': 1, b'k': 2}] at address 1: the last key is a [bytes]. *)
Definition heap_bytes_key_last : heap :=
  <[ 1%nat := ODict [(KStr (u "a"), VInt 1); (KBytes [107], VInt 2)] ]> ∅.

(** A hexadecimal digit other than [e] and [E]. *)
Definition hex_digit_not_e (c : Z) : Prop :=
  48 <= c <= 57 \/ 97 <= c <= 100 \/ c = 102 \/ 65 <= c <= 68 \/ c = 70.

(** A computation of the encoder that leaves the set of seen objects as
    it found it. *)
Definition leaves_seen {A} (m : _Encoder.M A) : Prop :=
  forall st, _Encoder._seen_objs (snd (m st)) = _Encoder._seen_objs st.

(* ===================================================================== *)
(** ** Facts about the text operations *)
(* ===================================================================== *)

Lemma startswith_spec (p s : pystr) :
  startswith p s = true <-> exists rest, s = p ++ rest.
Proof.
  revert s; induction p as [|a p IH]; intros s; simpl.
  - split; [intros _; by exists s | done].
  - destruct s as [|b s]; simpl.
    + split; [done | intros [rest H]; discriminate].
    + rewrite andb_true_iff, Z.eqb_eq, IH. split.
      * intros [-> [rest ->]]. by exists rest.
      * intros [rest H]. injection H as -> ->. split; [done | by exists rest].
Qed.

Lemma char_in_spec (c : Z) (s : pystr) :
  char_in c s = true <-> c ∈ s.
Proof.
  unfold char_in. rewrite existsb_exists, list_elem_of_In. split.
  - intros [x [Hin Heq]]. apply Z.eqb_eq in Heq. by subst.
  - intros Hin. exists c. split; [done | apply Z.eqb_refl].
Qed.

Lemma str_in_spec (p s : pystr) :
  str_in p s = true <-> exists pre post, s = pre ++ p ++ post.
Proof.
  induction s as [|b s IH]; simpl.
  - rewrite orb_false_r, startswith_spec. split.
    + intros [rest H]. by exists [], rest.
    + intros [pre [post H]]. destruct pre; simpl in H; [by exists post | done].
  - rewrite orb_true_iff, startswith_spec, IH. split.
    + intros [[rest H] | [pre [post H]]].
      * by exists [], rest.
      * exists (b :: pre), post. by rewrite H.
    + intros [pre [post H]]. destruct pre as [|x pre]; simpl in H.
      * left. by exists post.
      * right. injection H as _ H. by exists pre, post.
Qed.

(** Decimal numerals are made of digits. *)
Lemma dec_loop_digits (fuel : nat) (n : Z) (acc : pystr) :
  0 <= n ->
  Forall (fun c => 48 <= c <= 57) acc ->
  Forall (fun c => 48 <= c <= 57) (dec_loop fuel n acc).
Proof.
  revert n acc; induction fuel as [|fuel IH]; intros n acc Hn Hacc; simpl.
  - done.
  - destruct (Z.ltb_spec n 10).
    + constructor; [lia | done].
    + apply IH.
      * apply Z.div_pos; lia.
      * constructor; [|done].
        pose proof (Z.mod_pos_bound n 10). lia.
Qed.

Lemma str_of_int_chars (n : Z) :
  Forall (fun c => c = 45 \/ 48 <= c <= 57) (str_of_int n).
Proof.
  unfold str_of_int.
  assert (Forall (fun c => c = 45 \/ 48 <= c <= 57)
            (dec_loop (S (Z.to_nat (Z.log2 (Z.abs n)))) (Z.abs n) [])) as H.
  { eapply Forall_impl; [apply dec_loop_digits; [lia | constructor] |].
    simpl. intros c Hc. by right. }
  destruct (n <? 0); [constructor; [by left | done] | done].
Qed.

(* ===================================================================== *)
(** ** The encoder on scalars *)
(* ===================================================================== *)

(** C10. The booleans encode to the tokens [true] and [false], the
    integers 1 and 0 to the numerals [1] and [0]; no integer encodes to a
    boolean token. *)
Theorem C10_booleans_and_integers_apart :
  forall (fuel : nat) (self : _Encoder.t) (h : heap) (st : _Encoder.state),
    _Encoder.dumps (S fuel) self h (VBool true) st = (Ok (RStr (u "true")), st) /\
    _Encoder.dumps (S fuel) self h (VBool false) st = (Ok (RStr (u "false")), st) /\
    _Encoder.dumps (S fuel) self h (VInt 1) st = (Ok (RStr (u "1")), st) /\
    _Encoder.dumps (S fuel) self h (VInt 0) st = (Ok (RStr (u "0")), st) /\
    (forall n : Z, exists s,
        _Encoder.dumps (S fuel) self h (VInt n) st = (Ok (RStr s), st) /\
        s <> u "true" /\ s <> u "false").
Proof.
  intros fuel self h st.
  split; [reflexivity|]. split; [reflexivity|].
  split; [reflexivity|]. split; [reflexivity|].
  intros n. exists (str_of_int n).
  split; [reflexivity|]. split.
  - intros Heq. pose proof (str_of_int_chars n) as H. rewrite Heq in H.
    apply Forall_cons in H as [H _]. cbn in H. lia.
  - intros Heq. pose proof (str_of_int_chars n) as H. rewrite Heq in H.
    apply Forall_cons in H as [H _]. cbn in H. lia.
Qed.

(** C3. Encoding a float never yields text: whatever the float and the
    options, the test of the float case looks up the unbound name [math]
    and the call raises [NameError]. *)
Theorem C3_float_raises_NameError :
  forall (fuel : nat) (self : _Encoder.t) (h : heap) (st : _Encoder.state)
         (f : pyfloat),
    _Encoder.dumps (S fuel) self h (VFloat f) st
    = (Err (Exn NameError (ArgMsg "name 'math' is not defined")), st).
Proof.
  intros fuel self h st f. simpl. unfold _Encoder.bind.
  destruct (_Encoder.allow_nan self); reflexivity.
Qed.

(** C1. No float has an encoding, so there is no text to decode back:
    the round trip fails at every finite float, 1.5 among them. *)
Theorem C1_float_has_no_encoding :
  forall (fuel : nat) (self : _Encoder.t) (h : heap) (st : _Encoder.state)
         (f : pyfloat) (r : ret),
    fst (_Encoder.dumps fuel self h (VFloat f) st) <> Ok r.
Proof.
  intros fuel self h st f r. destruct fuel as [|fuel].
  - simpl. discriminate.
  - simpl. unfold _Encoder.bind.
    destruct (_Encoder.allow_nan self); simpl; discriminate.
Qed.

(** C5. A value of a class the encoder has no case for makes it raise
    [TypeError] carrying the value, whatever [default] hook the encoder
    holds: the hook is stored and never called. *)
Theorem C5_default_hook_ignored :
  forall (self : _Encoder.t) (fuel : nat) (h : heap) (st : _Encoder.state)
         (obj : value),
    type_of h obj = TBytes \/ type_of h obj = TTuple \/ type_of h obj = TObject ->
    _Encoder.dumps (S fuel) self h obj st
    = (Err (Exn TypeError (ArgValue obj)), st).
Proof.
  intros self fuel h st obj Hty.
  destruct obj as [| b | n | f | s | bs | items | addr]; simpl in Hty;
    try (destruct Hty as [? | [? | ?]]; discriminate); try reflexivity.
  simpl. destruct (h !! addr) as [[items | els] |];
    try (destruct Hty as [? | [? | ?]]; discriminate); reflexivity.
Qed.

Lemma C5_default_hook_ignored_witness :
  _Encoder.dumps 1 (fst (_Encoder.init ascii_runtime kwargs_hook)) ∅
    (VTuple [VInt 1; VInt 2]) state0
  = (Err (Exn TypeError (ArgValue (VTuple [VInt 1; VInt 2]))), state0).
Proof.
  apply (C5_default_hook_ignored (fst (_Encoder.init ascii_runtime kwargs_hook))
           0 ∅ state0 (VTuple [VInt 1; VInt 2])).
  right; left; reflexivity.
Defined.

(* ===================================================================== *)
(** ** The encoder on containers *)
(* ===================================================================== *)

(** Entering a container that is not in the set of seen objects (or with
    the check off) does not raise. *)
Lemma check_seen_enters (self : _Encoder.t) (addr : nat) (st : _Encoder.state) :
  _Encoder.check_circular self = false \/ addr ∉ _Encoder._seen_objs st ->
  exists st', _Encoder.check_seen self addr st = (Ok tt, st').
Proof.
  intros H. unfold _Encoder.check_seen.
  destruct (_Encoder.check_circular self) eqn:Hc.
  - destruct H as [H | H]; [discriminate|].
    unfold _Encoder.bind, _Encoder.get. simpl.
    destruct (decide (addr ∈ _Encoder._seen_objs st)); [done|].
    eexists. reflexivity.
  - eexists. reflexivity.
Qed.

(** C9. With [indent] set, encoding a list, or a dict when [sort_keys]
    is off, raises [UnboundLocalError]: the local [indent] is read before
    it is assigned.  No indented text is produced. *)
Theorem C9_indent_raises_UnboundLocalError :
  forall (fuel : nat) (self : _Encoder.t) (h : heap) (st : _Encoder.state)
         (addr : nat) (o : object) (width : Z),
    _Encoder.indent self = Some width ->
    h !! addr = Some o ->
    _Encoder.sort_keys self = false \/ (exists els, o = OList els) ->
    _Encoder.check_circular self = false \/ addr ∉ _Encoder._seen_objs st ->
    fst (_Encoder.dumps (S fuel) self h (VRef addr) st)
    = Err (Exn UnboundLocalError
             (ArgMsg "local variable 'indent' referenced before assignment")).
Proof.
  intros fuel self h st addr o width Hind Hh Hsort Hseen.
  destruct (check_seen_enters self addr st Hseen) as [st' Hst'].
  simpl. rewrite Hh. destruct o as [items | els].
  - destruct Hsort as [Hsort | [els Hels]]; [|discriminate].
    unfold _Encoder.bind. rewrite Hst', Hsort. simpl.
    unfold _Encoder.local_indent. rewrite Hind. reflexivity.
  - unfold _Encoder.bind. rewrite Hst'. simpl.
    unfold _Encoder.local_indent. rewrite Hind. reflexivity.
Qed.

Lemma C9_indent_raises_UnboundLocalError_witness :
  fst (_Encoder.dumps 2 (fst (_Encoder.init ascii_runtime kwargs_indent2))
         heap_list1 (VRef 1) state0)
  = Err (Exn UnboundLocalError
           (ArgMsg "local variable 'indent' referenced before assignment")).
Proof.
  apply (C9_indent_raises_UnboundLocalError 1
           (fst (_Encoder.init ascii_runtime kwargs_indent2))
           heap_list1 state0 1%nat (OList [VInt 1]) 2).
  - reflexivity.
  - reflexivity.
  - right. exists [VInt 1]. reflexivity.
  - right. simpl. apply not_elem_of_empty.
Defined.

(** C7. A dict whose first key is of an accepted class other than [str]
    (an integer, a float, a boolean, [None]) is not encoded: rendering the
    key hands it to the pattern's [search], which raises [TypeError]. *)
Theorem C7_non_string_key_raises :
  forall (fuel : nat) (self : _Encoder.t) (h : heap) (st : _Encoder.state)
         (addr : nat) (k : key) (v : value) (items : list (key * value)),
    type_of_key k ∈ _Encoder._valid_key_types self ->
    type_of_key k <> TStr ->
    _Encoder.indent self = None ->
    _Encoder.sort_keys self = false ->
    _Encoder.check_circular self = false \/ addr ∉ _Encoder._seen_objs st ->
    h !! addr = Some (ODict ((k, v) :: items)) ->
    fst (_Encoder.dumps (S fuel) self h (VRef addr) st)
    = Err (Exn TypeError (ArgMsg "expected string or bytes-like object")).
Proof.
  intros fuel self h st addr k v items Hvalid Hnotstr Hind Hsort Hseen Hh.
  destruct (check_seen_enters self addr st Hseen) as [st' Hst'].
  simpl. rewrite Hh. unfold _Encoder.bind. rewrite Hst', Hsort. simpl.
  unfold _Encoder.local_indent. rewrite Hind. simpl.
  rewrite bool_decide_eq_true_2 by done. simpl.
  destruct k; simpl; try reflexivity. by destruct Hnotstr.
Qed.

Lemma C7_non_string_key_raises_witness :
  fst (_Encoder.dumps 2 encoder0 heap_int_key (VRef 1) state0)
  = Err (Exn TypeError (ArgMsg "expected string or bytes-like object")).
Proof.
  apply (C7_non_string_key_raises 1 encoder0 heap_int_key state0 1%nat
           (KInt 1) (VStr (u "a")) []).
  - cbn. repeat constructor.
  - discriminate.
  - reflexivity.
  - reflexivity.
  - right. simpl. apply not_elem_of_empty.
  - reflexivity.
Defined.

(** C2. With the circular check on, a list that contains itself is
    refused with [ValueError] after two nested calls; so is the acyclic
    list [[a, a]] whose two elements are one empty list: the second visit
    of [a] finds it in the set of seen objects, which is never shrunk. *)
Theorem C2_sibling_reuse_refused :
  forall fuel : nat,
    fst (_Encoder.dumps (S (S fuel)) encoder0 heap_self (VRef 1) state0)
    = Err (Exn ValueError (ArgValue (VRef 1))) /\
    fst (_Encoder.dumps (S (S fuel)) encoder0 heap_siblings (VRef 1) state0)
    = Err (Exn ValueError (ArgValue (VRef 2))).
Proof.
  intros fuel. split; reflexivity.
Qed.

(* ===================================================================== *)
(** ** The entry point *)
(* ===================================================================== *)

(** C4 (as the code has it). Selecting [compact] without [as_json] makes
    the entry point return what a new [_Encoder]'s [dumps] returns; it is
    without [compact] (and without [as_json]) that it delegates to
    [json.dumps]; an explicit [as_json] decides alone. *)
Theorem C4_routes_of_the_entry_point :
  forall (rt : runtime) (limit : nat) (kw : dumps_kwargs) (h : heap)
         (obj : value),
    let via_encoder :=
      Encoder_dumps
        (fst (_Encoder.dumps limit (fst (_Encoder.init rt (kwargs kw))) h obj
                (snd (_Encoder.init rt (kwargs kw))))) in
    (as_json kw = None -> compact kw = Some true ->
     dumps rt limit kw h obj = via_encoder) /\
    (as_json kw = None -> compact kw <> Some true ->
     dumps rt limit kw h obj = Json_dumps obj (kwargs kw)) /\
    (as_json kw = Some true ->
     dumps rt limit kw h obj = Json_dumps obj (kwargs kw)) /\
    (as_json kw = Some false ->
     dumps rt limit kw h obj = via_encoder).
Proof.
  intros rt limit kw h obj via_encoder. unfold dumps.
  destruct (as_json kw) as [[|]|]; destruct (compact kw) as [[|]|]; simpl;
    repeat split; intros; try discriminate; try reflexivity; congruence.
Qed.

Lemma C4_routes_of_the_entry_point_witness :
  dumps ascii_runtime 1000 kwargs_compact heap_a1 (VRef 1)
  = Encoder_dumps (Ok (RStr (u "{a: 1}"))).
Proof.
  apply (proj1 (C4_routes_of_the_entry_point ascii_runtime 1000
                  kwargs_compact heap_a1 (VRef 1))); reflexivity.
Defined.

(** C4 (as stated) fails: with [compact=True], [{'a': 1}] comes out of
    the relaxed-format encoder, as [{a: 1}], not out of [json.dumps]. *)
Lemma C4_compact_uses_the_encoder :
  dumps ascii_runtime 1000 kwargs_compact heap_a1 (VRef 1)
  = Encoder_dumps (Ok (RStr (u "{a: 1}"))) /\
  ~ compact_delegates ascii_runtime 1000 kwargs_compact heap_a1 (VRef 1).
Proof.
  split; [reflexivity|].
  intros H. destruct (H eq_refl) as [kw' Hkw']. discriminate Hkw'.
Qed.

(* ===================================================================== *)
(** ** Strings: quote selection and escaping *)
(* ===================================================================== *)

(** Below 0x10000 the format ['%04x'] yields exactly four digits. *)

Lemma hex_loop_last (f : nat) (n : Z) (acc : pystr) :
  n < 16 -> hex_loop (S f) n acc = hex_digit n :: acc.
Proof. intros H. simpl. destruct (Z.ltb_spec n 16); [done | lia]. Qed.

Lemma hex_loop_next (f : nat) (n : Z) (acc : pystr) :
  16 <= n ->
  hex_loop (S f) n acc = hex_loop f (n / 16) (hex_digit (n mod 16) :: acc).
Proof. intros H. simpl. destruct (Z.ltb_spec n 16); [lia | done]. Qed.

Lemma hex_fuel (c : Z) :
  16 <= c -> exists f, Z.to_nat (Z.log2 c) = S (S (S (S f))).
Proof.
  intros H. pose proof (Z.log2_le_mono 16 c H) as Hl.
  change (Z.log2 16) with 4 in Hl.
  exists (Z.to_nat (Z.log2 c) - 4)%nat. lia.
Qed.

Ltac euclid := Z.to_euclidean_division_equations; lia.

Lemma fmt_04x_u4 (c : Z) :
  0 <= c < 65536 -> fmt_04x c = u4 c.
Proof.
  intros Hc. unfold fmt_04x, hex, u4.
  destruct (Z_lt_le_dec c 16) as [H16 | H16].
  { rewrite hex_loop_last by done. simpl.
    replace (c / 4096) with 0 by euclid.
    replace (c / 256) with 0 by euclid.
    replace (c / 16) with 0 by euclid.
    replace (c mod 16) with c by euclid. reflexivity. }
  destruct (hex_fuel c H16) as [f ->].
  rewrite hex_loop_next by done.
  destruct (Z_lt_le_dec (c / 16) 16) as [H256 | H256].
  { rewrite hex_loop_last by done. simpl.
    replace (c / 4096) with 0 by euclid.
    replace (c / 256) with 0 by euclid.
    replace ((c / 16) mod 16) with (c / 16) by euclid. reflexivity. }
  rewrite hex_loop_next by done.
  rewrite Z.div_div by lia. change (16 * 16) with 256.
  destruct (Z_lt_le_dec (c / 256) 16) as [H4096 | H4096].
  { rewrite hex_loop_last by done. simpl.
    replace (c / 4096) with 0 by euclid.
    replace ((c / 256) mod 16) with (c / 256) by euclid. reflexivity. }
  rewrite hex_loop_next by done.
  rewrite Z.div_div by lia. change (256 * 16) with 4096.
  rewrite hex_loop_last by euclid. simpl.
  reflexivity.
Qed.

(** A character inside single quotes; the string has no single quote. *)
Lemma esc_char_in_squotes (c : Z) :
  c <> squote -> renders true squote c (_Encoder._esc_char c true false).
Proof.
  intros Hc. unfold _Encoder._esc_char, squote, dquote in *.
  rewrite andb_false_r.
  destruct (Z.eqb_spec c 39) as [-> | _]; [done|]. simpl.
  destruct (Z.leb_spec 32 c), (Z.ltb_spec c 128); simpl.
  - destruct (decide (c = 34)) as [-> | Hd].
    + apply renders_other_quote; [done | by right | done].
    + apply renders_printable; [done | lia | done | done].
  - destruct (decide (c <= 65535)).
    + rewrite fmt_04x_u4 by lia. apply renders_escape; [done | lia].
    + apply renders_unconstrained; [done | lia].
  - destruct (decide (0 <= c)).
    + rewrite fmt_04x_u4 by lia. apply renders_escape; [done | lia].
    + apply renders_unconstrained; [done | lia].
  - lia.
Qed.

(** A character inside double quotes. *)
Lemma esc_char_in_dquotes (c : Z) :
  renders true dquote c (_Encoder._esc_char c false true).
Proof.
  unfold _Encoder._esc_char, squote, dquote in *.
  rewrite andb_true_r, andb_false_r.
  destruct (Z.eqb_spec c 34) as [-> | Hd].
  { by apply renders_wrapping_dquote. }
  destruct (Z.leb_spec 32 c), (Z.ltb_spec c 128); simpl.
  - destruct (decide (c = 39)) as [-> | Hs].
    + apply renders_other_quote; [done | by left | done].
    + apply renders_printable; [done | lia | done | done].
  - destruct (decide (c <= 65535)).
    + rewrite fmt_04x_u4 by lia. apply renders_escape; [done | lia].
    + apply renders_unconstrained; [done | lia].
  - destruct (decide (0 <= c)).
    + rewrite fmt_04x_u4 by lia. apply renders_escape; [done | lia].
    + apply renders_unconstrained; [done | lia].
  - lia.
Qed.

Lemma concat_singletons (s : pystr) :
  concat (List.map (fun c => [c]) s) = s.
Proof. induction s as [|c s IH]; simpl; [done | by rewrite IH]. Qed.

(** [_esc_str] is the concatenation of one rendering per character. *)
Lemma esc_str_renders (self : _Encoder.t) (s : pystr) (q : Z) :
  wrapping s q ->
  exists pieces,
    Forall2 (renders (_Encoder.ensure_ascii self) q) s pieces /\
    _Encoder._esc_str self s (bool_decide (q = squote)) (bool_decide (q = dquote))
    = concat pieces.
Proof.
  intros Hq. unfold _Encoder._esc_str.
  destruct (_Encoder.ensure_ascii self) eqn:Ha; simpl.
  - destruct Hq as [[Hno ->] | [_ ->]].
    + exists (List.map (fun ch => _Encoder._esc_char ch true false) s).
      split; [|reflexivity].
      induction s as [|c s IH]; simpl; constructor.
      * apply esc_char_in_squotes. intros ->. apply Hno. by left.
      * apply IH. intros Hin. apply Hno. by right.
    + exists (List.map (fun ch => _Encoder._esc_char ch false true) s).
      split; [|reflexivity].
      induction s as [|c s IH]; simpl; constructor.
      * apply esc_char_in_dquotes.
      * apply IH.
  - clear Hq. exists (List.map (fun c => [c]) s). split.
    + induction s as [|c s IH]; simpl; constructor.
      * by apply renders_verbatim.
      * apply IH.
    + by rewrite concat_singletons.
Qed.

(** C6 (as the code has it). A string is wrapped in single quotes when
    it has no single quote, in double quotes otherwise, and between them
    each character appears as [renders] says: verbatim without
    ascii-only; with it, the other quote character verbatim, a double
    quote inside double quotes behind a backslash, and a character
    outside 32-127 and up to 0xFFFF as backslash, [u] and its four
    hexadecimal digits. *)
Theorem C6_string_quoting :
  forall (fuel : nat) (self : _Encoder.t) (h : heap) (st : _Encoder.state)
         (s : pystr),
  exists q pieces,
    wrapping s q /\
    Forall2 (renders (_Encoder.ensure_ascii self) q) s pieces /\
    _Encoder.dumps (S fuel) self h (VStr s) st
    = (Ok (RStr (q :: concat pieces ++ [q])), st).
Proof.
  intros fuel self h st s. simpl.
  destruct (char_in squote s) eqn:Hin; simpl.
  - assert (wrapping s dquote) as Hw.
    { right. split; [by apply char_in_spec | done]. }
    destruct (esc_str_renders self s dquote Hw) as [pieces [HF Heq]].
    exists dquote, pieces. repeat split; [done | done |].
    simpl in Heq. by rewrite Heq.
  - assert (wrapping s squote) as Hw.
    { left. split; [|done]. intros H. apply char_in_spec in H. congruence. }
    destruct (esc_str_renders self s squote Hw) as [pieces [HF Heq]].
    exists squote, pieces. repeat split; [done | done |].
    simpl in Heq. by rewrite Heq.
Qed.

(** C6 (as stated) fails: the string of a single quote and a double quote
    is wrapped in double quotes, and its double quote comes out behind a
    backslash. *)
Lemma C6_wrapping_quote_is_escaped :
  fst (_Encoder.dumps 1 encoder0 ∅ (VStr [squote; dquote]) state0)
  = Ok (RStr [dquote; squote; bslash; dquote; dquote]) /\
  ~ string_rule_stated encoder0 [squote; dquote]
      (fst (_Encoder.dumps 1 encoder0 ∅ (VStr [squote; dquote]) state0)).
Proof.
  split; [reflexivity|].
  intros (q & pieces & Hw & HF & Heq).
  apply Forall2_cons_inv_l in HF as (p1 & rest & H1 & HF & ->).
  apply Forall2_cons_inv_l in HF as (p2 & rest' & H2 & HF & ->).
  apply Forall2_nil_inv_l in HF as ->.
  assert (p1 = [squote]) as ->.
  { inversion H1; subst; try done; unfold squote in *; lia. }
  assert (p2 = [dquote]) as ->.
  { inversion H2; subst; try done; unfold dquote in *; lia. }
  simpl in Heq. injection Heq as Hq Habs. discriminate Habs.
Qed.

(* ===================================================================== *)
(** ** The decoder on number literals *)
(* ===================================================================== *)

Lemma hex_prefixed_test (lit : pystr) :
  startswith (u "0x") lit || startswith (u "0X") lit = true
  <-> hex_prefixed lit.
Proof.
  rewrite orb_true_iff, !startswith_spec. unfold hex_prefixed. split.
  - intros [[rest H] | [rest H]]; exists rest; [by left | by right].
  - intros [rest [H | H]]; [left | right]; by exists rest.
Qed.

Lemma has_dot_or_exponent_test (lit : pystr) :
  char_in 46 lit || char_in 101 lit || char_in 69 lit = true
  <-> has_dot_or_exponent lit.
Proof.
  rewrite !orb_true_iff, !char_in_spec. unfold has_dot_or_exponent. tauto.
Qed.

Lemma names_constant_test (lit : pystr) :
  str_in (u "Infinity") lit || str_in (u "NaN") lit = true
  <-> names_constant lit.
Proof.
  rewrite orb_true_iff, !str_in_spec. unfold names_constant. split.
  - intros [(pre & post & H) | (pre & post & H)]; exists pre, post;
      [by left | by right].
  - intros (pre & post & [H | H]); [left | right]; by exists pre, post.
Qed.

(** The number case of [walk]. *)
Lemma walk_number (self : _Decoder.t) (lit : pystr) :
  _Decoder.walk self (_Decoder.Number lit)
  = if startswith (u "0x") lit || startswith (u "0X") lit then
      _Decoder.parse_int self lit (Some 16)
    else if char_in 46 lit || char_in 101 lit || char_in 69 lit then
      _Decoder.parse_float self lit
    else if str_in (u "Infinity") lit || str_in (u "NaN") lit then
      _Decoder.parse_constant self lit
    else
      _Decoder.parse_int self lit None.
Proof. reflexivity. Qed.

(** A literal has at most one class. *)
Lemma number_class_unique (lit : pystr) (c c' : number_kind) :
  number_class lit c -> number_class lit c' -> c' = c.
Proof.
  intros H H'. destruct H; destruct H'; try reflexivity; contradiction.
Qed.

(** C8. Every number literal has exactly one syntactic class, and [walk]
    hands it to the hook of that class: with prefix [0x]/[0X] to the
    integer parser in base 16; else, with a ['.'], ['e'] or ['E'], to the
    float parser; else, naming [Infinity] or [NaN], to the constant
    parser; else to the integer parser.  With the default hooks [0x1A]
    and [0X1a] decode to 26, and the constant tokens, signed or not, go
    to the constant parser. *)
Theorem C8_number_classification :
  forall (self : _Decoder.t) (lit : pystr),
    (exists c,
        number_class lit c /\
        (forall c', number_class lit c' -> c' = c) /\
        _Decoder.walk self (_Decoder.Number lit) = decode_as self c lit) /\
    (forall (rt : runtime) (h : heap),
        _Decoder.walk (_Decoder.init rt _Decoder.no_kwargs)
          (_Decoder.Number (u "0x1A")) h = Ok (VInt 26, h) /\
        _Decoder.walk (_Decoder.init rt _Decoder.no_kwargs)
          (_Decoder.Number (u "0X1a")) h = Ok (VInt 26, h)) /\
    (forall tok,
        tok ∈ [u "Infinity"; u "-Infinity"; u "+Infinity";
               u "NaN"; u "-NaN"; u "+NaN"] ->
        number_class tok Constant /\
        _Decoder.walk self (_Decoder.Number tok) = _Decoder.parse_constant self tok).
Proof.
  intros self lit.
  assert (forall l, exists c,
             number_class l c /\
             _Decoder.walk self (_Decoder.Number l) = decode_as self c l) as Hcls.
  { intros l. rewrite walk_number.
    destruct (startswith (u "0x") l || startswith (u "0X") l) eqn:Hhex.
    { exists HexInteger. split; [|done].
      apply class_hex. by apply hex_prefixed_test. }
    assert (~ hex_prefixed l) as Hnhex.
    { intros H. apply hex_prefixed_test in H. congruence. }
    destruct (char_in 46 l || char_in 101 l || char_in 69 l) eqn:Hdot.
    { exists Float. split; [|done].
      apply class_float; [done|]. by apply has_dot_or_exponent_test. }
    assert (~ has_dot_or_exponent l) as Hndot.
    { intros H. apply has_dot_or_exponent_test in H. congruence. }
    destruct (str_in (u "Infinity") l || str_in (u "NaN") l) eqn:Hconst.
    { exists Constant. split; [|done].
      apply class_constant; [done | done |]. by apply names_constant_test. }
    exists Integer. split; [|done].
    apply class_integer; [done | done |].
    intros H. apply names_constant_test in H. congruence. }
  split; [|split].
  - destruct (Hcls lit) as (c & Hc & Hwalk). exists c.
    split; [done|]. split; [|done].
    intros c' Hc'. by apply (number_class_unique lit c c').
  - intros rt h. split; reflexivity.
  - intros tok Htok.
    destruct (Hcls tok) as (c & Hc & Hwalk).
    assert (number_class tok Constant) as Hconst.
    { repeat (apply elem_of_cons in Htok as [-> | Htok]);
        try (apply class_constant;
             [ intros H; apply hex_prefixed_test in H; discriminate H
             | intros H; apply has_dot_or_exponent_test in H; discriminate H
             | apply names_constant_test; reflexivity ]).
      by apply elem_of_nil in Htok. }
    split; [done|].
    rewrite Hwalk. by rewrite (number_class_unique tok Constant c Hconst Hc).
Qed.

Lemma C8_number_classification_witness :
  number_class (u "-Infinity") Constant /\
  _Decoder.walk decoder0 (_Decoder.Number (u "-Infinity"))
  = _Decoder.parse_constant decoder0 (u "-Infinity").
Proof.
  apply (proj2 (proj2 (C8_number_classification decoder0 (u "3")))).
  right; left.
Defined.

(* ===================================================================== *)
(** ** The testable properties of the spec, on the model *)
(* ===================================================================== *)

(** A string key is rendered bare when it has no non-word character, and
    otherwise exactly as the string of the same text is encoded. *)
Lemma esc_key_of_string (fuel : nat) (self : _Encoder.t) (h : heap)
    (st : _Encoder.state) (k : pystr) :
  _Encoder._esc_key self (KStr k)
  = if _Encoder._notletter self k
    then match fst (_Encoder.dumps (S fuel) self h (VStr k) st) with
         | Ok (RStr s) => Ok s
         | _ => Ok k
         end
    else Ok k.
Proof.
  simpl. destruct (_Encoder._notletter self k); [|reflexivity].
  destruct (char_in squote k); reflexivity.
Qed.

(** [it's] goes in double quotes, [say "hi"] in single quotes, both
    without a backslash. *)
Example quote_selection :
  fst (_Encoder.dumps 1 encoder0 ∅ (VStr (u "it's")) state0)
  = Ok (RStr (dquote :: u "it's" ++ [dquote])) /\
  fst (_Encoder.dumps 1 encoder0 ∅
         (VStr (u "say " ++ dquote :: u "hi" ++ [dquote])) state0)
  = Ok (RStr (squote :: u "say " ++ dquote :: u "hi" ++ [dquote; squote])).
Proof. split; reflexivity. Qed.

(** [{'valid_id1': True, 'has space': None}] has its first key bare and
    its second quoted; without [indent] nothing but the separators is
    inserted. *)
Example bare_and_quoted_keys :
  fst (_Encoder.dumps 2 encoder0
         (<[ 1%nat := ODict [(KStr (u "valid_id1"), VBool true);
                            (KStr (u "has space"), VNone)] ]> ∅)
         (VRef 1) state0)
  = Ok (RStr (u "{valid_id1: true, 'has space': null}")).
Proof. reflexivity. Qed.

(** With [sort_keys], [{'b': 1, 'a': 2}] is written [a] first. *)
Example sorted_keys :
  fst (_Encoder.dumps 2
         (fst (_Encoder.init ascii_runtime
                 {| _Encoder.kw_skipkeys := false;
                    _Encoder.kw_ensure_ascii := true;
                    _Encoder.kw_check_circular := true;
                    _Encoder.kw_allow_nan := true;
                    _Encoder.kw_indent := None;
                    _Encoder.kw_separators := None;
                    _Encoder.kw_encoding := u "utf-8";
                    _Encoder.kw_default := None;
                    _Encoder.kw_sort_keys := true |}))
         (<[ 1%nat := ODict [(KStr (u "b"), VInt 1); (KStr (u "a"), VInt 2)] ]> ∅)
         (VRef 1) state0)
  = Ok (RStr (u "{a: 2, b: 1}")).
Proof. reflexivity. Qed.

(** A key of a class outside the accepted ones ([bytes]) stops the
    encoding with [TypeError], or is left out under [skipkeys]. *)
Example invalid_key_skipped :
  let h : heap :=
    <[ 1%nat := ODict [(KBytes [107], VInt 1); (KStr (u "a"), VInt 2)] ]> ∅ in
  fst (_Encoder.dumps 2 encoder0 h (VRef 1) state0)
  = Err (Exn TypeError (ArgValue (VBytes [107]))) /\
  fst (_Encoder.dumps 2
         (fst (_Encoder.init ascii_runtime
                 {| _Encoder.kw_skipkeys := true;
                    _Encoder.kw_ensure_ascii := true;
                    _Encoder.kw_check_circular := true;
                    _Encoder.kw_allow_nan := true;
                    _Encoder.kw_indent := None;
                    _Encoder.kw_separators := None;
                    _Encoder.kw_encoding := u "utf-8";
                    _Encoder.kw_default := None;
                    _Encoder.kw_sort_keys := false |}))
         h (VRef 1) state0)
  = Ok (RStr (u "{a: 2}")).
Proof. split; reflexivity. Qed.

(** [3] decodes through the integer parser, [3.0] and [3e2] through the
    float parser, whatever the hooks are. *)
Example numeric_classification (self : _Decoder.t) :
  _Decoder.walk self (_Decoder.Number (u "3"))
  = _Decoder.parse_int self (u "3") None /\
  _Decoder.walk self (_Decoder.Number (u "3.0"))
  = _Decoder.parse_float self (u "3.0") /\
  _Decoder.walk self (_Decoder.Number (u "3e2"))
  = _Decoder.parse_float self (u "3e2").
Proof. repeat split. Qed.

(** A signed hexadecimal literal does not start with [0x]: it reaches the
    integer parser without a base. *)
Example signed_hex_literal (self : _Decoder.t) :
  _Decoder.walk self (_Decoder.Number (u "-0x1A"))
  = _Decoder.parse_int self (u "-0x1A") None.
Proof. reflexivity. Qed.

(** Empty text is refused before the parser is consulted. *)
Example empty_input (rt : runtime) (parse : pystr -> _Decoder.node * option string)
    (self : _Decoder.t) (h : heap) :
  _Decoder.loads rt parse self (_Decoder.Text []) h
  = Err (Exn ValueError (ArgMsg "Empty strings are not legal JSON5")).
Proof. reflexivity. Qed.

(* ===================================================================== *)
(** ** Invariants of the encoder's state *)
(* ===================================================================== *)

Lemma keeps_pure {A} (a : A) (Q : A -> Prop) :
  Q a -> keeps (_Encoder.pure a) 0 Q.
Proof.
  intros HQ st. simpl. split; [done|].
  intros a' [= <-]. split; [lia | done].
Qed.

Lemma keeps_raise {A} (c : exn_class) (e : exn_arg) (d : Z) (Q : A -> Prop) :
  keeps (_Encoder.raise c e) d Q.
Proof. intros st. simpl. split; [done | discriminate]. Qed.

Lemma keeps_lift {A} (r : result A) (Q : A -> Prop) :
  (forall a, r = Ok a -> Q a) -> keeps (_Encoder.lift r) 0 Q.
Proof.
  intros HQ st. simpl. split; [done|].
  intros a Ha. split; [lia | by apply HQ].
Qed.

Lemma keeps_bind {A B} (m : _Encoder.M A) (k : A -> _Encoder.M B)
    (d1 d : Z) (Q1 : A -> Prop) (Q : B -> Prop) :
  keeps m d1 Q1 ->
  (forall a, Q1 a -> keeps (k a) (d - d1) Q) ->
  keeps (_Encoder.bind m k) d Q.
Proof.
  intros Hm Hk st. unfold _Encoder.bind.
  destruct (Hm st) as [Hseen Hok].
  destruct (m st) as [[a | e] st1] eqn:Hmst; simpl in *.
  - destruct (Hok a eq_refl) as [Hlvl HQ1].
    destruct (Hk a HQ1 st1) as [Hseen' Hok'].
    split; [by trans (_Encoder._seen_objs st1)|].
    intros b Hb. destruct (Hok' b Hb) as [Hlvl' HQ]. split; [lia | done].
  - split; [done | discriminate].
Qed.

Lemma keeps_weaken {A} (m : _Encoder.M A) (d : Z) (Q Q' : A -> Prop) :
  keeps m d Q -> (forall a, Q a -> Q' a) -> keeps m d Q'.
Proof.
  intros Hm HQ st. destruct (Hm st) as [Hseen Hok]. split; [done|].
  intros a Ha. destruct (Hok a Ha). split; [done | by apply HQ].
Qed.

Lemma keeps_check_seen (self : _Encoder.t) (addr : nat) :
  keeps (_Encoder.check_seen self addr) 0 (fun _ => True).
Proof.
  intros st. unfold _Encoder.check_seen.
  destruct (_Encoder.check_circular self).
  - unfold _Encoder.bind, _Encoder.get. simpl.
    destruct (decide (addr ∈ _Encoder._seen_objs st)); simpl.
    + split; [done | discriminate].
    + split; [set_solver|]. intros a _. split; [lia | done].
  - simpl. split; [done|]. intros a _. split; [lia | done].
Qed.

Lemma keeps_add_indent_level (d : Z) :
  keeps (_Encoder.add_indent_level d) d (fun _ => True).
Proof.
  intros st. unfold _Encoder.add_indent_level, _Encoder.bind. simpl.
  split; [done|]. intros a _. done.
Qed.

Lemma keeps_local_indent (self : _Encoder.t) :
  keeps (_Encoder.local_indent self) 0 (fun ind => ind = []).
Proof.
  unfold _Encoder.local_indent. destruct (_Encoder.indent self).
  - apply keeps_raise.
  - by apply keeps_pure.
Qed.

Lemma keeps_list_loop (rec : value -> _Encoder.M ret) (self : _Encoder.t)
    (ind : pystr) (Q : ret -> Prop) :
  (forall v, keeps (rec v) 0 Q) ->
  forall els num_els i s,
    keeps (_Encoder.list_loop rec self ind num_els i els s) 0 (fun _ => True).
Proof.
  intros Hrec els. induction els as [|el els IH]; intros num_els i s; simpl.
  - by apply keeps_pure.
  - eapply keeps_bind; [apply Hrec|]. intros r _.
    eapply keeps_bind; [by apply (keeps_lift _ (fun _ => True))|]. intros s' _.
    apply IH.
Qed.

Lemma keeps_dict_loop (rec : value -> _Encoder.M ret) (self : _Encoder.t)
    (ind : pystr) (Q : ret -> Prop) :
  (forall v, keeps (rec v) 0 Q) ->
  forall items num_keys keys i s,
    keeps (_Encoder.dict_loop rec self ind items num_keys i keys s) 0
      (fun _ => True).
Proof.
  intros Hrec items num_keys keys.
  induction keys as [|k keys IH]; intros i s; simpl.
  - by apply keeps_pure.
  - destruct (negb _).
    + destruct (_Encoder.skipkeys self); [apply IH | apply keeps_raise].
    + eapply keeps_bind; [by apply (keeps_lift _ (fun _ => True))|]. intros ek _.
      eapply keeps_bind; [by apply (keeps_lift _ (fun _ => True))|]. intros v _.
      eapply keeps_bind; [apply Hrec|]. intros r _.
      eapply keeps_bind; [by apply (keeps_lift _ (fun _ => True))|]. intros piece _.
      apply IH.
Qed.

(** The whole of [dumps]: seen objects only accumulate; a call that
    returns leaves the nesting level where it was and returns text. *)
Lemma keeps_dumps (fuel : nat) (self : _Encoder.t) (h : heap) (obj : value) :
  keeps (_Encoder.dumps fuel self h obj) 0 (fun r => r <> RNone).
Proof.
  revert obj. induction fuel as [|fuel IH]; intros obj.
  { apply keeps_raise. }
  destruct obj as [| [|] | n | f | s | bs | items | addr]; simpl;
    try (by apply keeps_pure).
  - intros st. unfold _Encoder.bind.
    destruct (_Encoder.allow_nan self); simpl; (split; [done | discriminate]).
  - destruct (negb (char_in squote s)); by apply keeps_pure.
  - eapply (keeps_bind _ _ 0 _ (fun _ => False)); [apply keeps_raise|]. intros r [].
  - eapply (keeps_bind _ _ 0 _ (fun _ => False)); [apply keeps_raise|]. intros r [].
  - destruct (h !! addr) as [[items | els] |].
    + eapply keeps_bind; [apply keeps_check_seen|]. intros _ _.
      eapply keeps_bind.
      { destruct (_Encoder.sort_keys self);
          [apply (keeps_lift _ (fun _ => True)) | apply (keeps_pure _ (fun _ => True))];
          done. }
      intros keys _.
      eapply keeps_bind; [apply keeps_add_indent_level|]. intros _ _.
      eapply keeps_bind; [apply keeps_local_indent|]. intros ind _.
      eapply keeps_bind; [apply (keeps_dict_loop _ _ _ _ IH)|]. intros s _.
      eapply keeps_bind; [apply keeps_add_indent_level|]. intros _ _.
      by apply keeps_pure.
    + eapply keeps_bind; [apply keeps_check_seen|]. intros _ _.
      eapply keeps_bind; [apply keeps_add_indent_level|]. intros _ _.
      eapply keeps_bind; [apply keeps_local_indent|]. intros ind _.
      eapply keeps_bind; [apply (keeps_list_loop _ _ _ _ IH)|]. intros s _.
      eapply keeps_bind; [apply keeps_add_indent_level|]. intros _ _.
      by apply keeps_pure.
    + eapply (keeps_bind _ _ 0 _ (fun _ => False)); [apply keeps_raise|]. intros r [].
Qed.

(** The container cases of [dumps], unfolded once. *)
Lemma dumps_list (fuel : nat) (self : _Encoder.t) (h : heap) (addr : nat)
    (els : list value) :
  h !! addr = Some (OList els) ->
  _Encoder.dumps (S fuel) self h (VRef addr)
  = _Encoder.bind (_Encoder.check_seen self addr)
      (fun _ => list_body (_Encoder.dumps fuel self h) self els).
Proof. intros Hh. simpl. rewrite Hh. reflexivity. Qed.

Lemma dumps_dict (fuel : nat) (self : _Encoder.t) (h : heap) (addr : nat)
    (items : list (key * value)) :
  h !! addr = Some (ODict items) ->
  _Encoder.dumps (S fuel) self h (VRef addr)
  = _Encoder.bind (_Encoder.check_seen self addr)
      (fun _ => dict_body (_Encoder.dumps fuel self h) self items).
Proof. intros Hh. simpl. rewrite Hh. reflexivity. Qed.

Lemma keeps_list_body (rec : value -> _Encoder.M ret) (self : _Encoder.t)
    (els : list value) (Q : ret -> Prop) :
  (forall v, keeps (rec v) 0 Q) ->
  keeps (list_body rec self els) 0 (fun r => r <> RNone).
Proof.
  intros Hrec. unfold list_body.
  eapply keeps_bind; [apply keeps_add_indent_level|]. intros _ _.
  eapply keeps_bind; [apply keeps_local_indent|]. intros ind _.
  eapply keeps_bind; [apply (keeps_list_loop _ _ _ _ Hrec)|]. intros s _.
  eapply keeps_bind; [apply keeps_add_indent_level|]. intros _ _.
  by apply keeps_pure.
Qed.

Lemma keeps_dict_body (rec : value -> _Encoder.M ret) (self : _Encoder.t)
    (items : list (key * value)) (Q : ret -> Prop) :
  (forall v, keeps (rec v) 0 Q) ->
  keeps (dict_body rec self items) 0 (fun r => r <> RNone).
Proof.
  intros Hrec. unfold dict_body.
  eapply keeps_bind.
  { destruct (_Encoder.sort_keys self);
      [apply (keeps_lift _ (fun _ => True)) | apply (keeps_pure _ (fun _ => True))];
      done. }
  intros keys _.
  eapply keeps_bind; [apply keeps_add_indent_level|]. intros _ _.
  eapply keeps_bind; [apply keeps_local_indent|]. intros ind _.
  eapply keeps_bind; [apply (keeps_dict_loop _ _ _ _ Hrec)|]. intros s _.
  eapply keeps_bind; [apply keeps_add_indent_level|]. intros _ _.
  by apply keeps_pure.
Qed.

(** A container the check lets in is in the set of seen objects from
    then on. *)
Lemma check_seen_marks (self : _Encoder.t) (addr : nat) (st st1 : _Encoder.state) :
  _Encoder.check_circular self = true ->
  _Encoder.check_seen self addr st = (Ok tt, st1) ->
  (addr ∉ _Encoder._seen_objs st) /\
  _Encoder._seen_objs st1 = {[ addr ]} ∪ _Encoder._seen_objs st.
Proof.
  intros Hc. unfold _Encoder.check_seen. rewrite Hc.
  unfold _Encoder.bind, _Encoder.get. simpl.
  destruct (decide (addr ∈ _Encoder._seen_objs st)); simpl; [discriminate|].
  intros [= <-]. done.
Qed.

Lemma dumps_marks (fuel : nat) (self : _Encoder.t) (h : heap) (addr : nat)
    (o : object) (st : _Encoder.state) (r : ret) :
  _Encoder.check_circular self = true ->
  h !! addr = Some o ->
  fst (_Encoder.dumps (S fuel) self h (VRef addr) st) = Ok r ->
  addr ∈ _Encoder._seen_objs (snd (_Encoder.dumps (S fuel) self h (VRef addr) st)).
Proof.
  intros Hc Hh.
  assert (exists body : _Encoder.M ret,
             keeps body 0 (fun r => r <> RNone) /\
             _Encoder.dumps (S fuel) self h (VRef addr)
             = _Encoder.bind (_Encoder.check_seen self addr) (fun _ => body))
    as (body & Hbody & ->).
  { destruct o as [items | els].
    - eexists. split; [|by apply dumps_dict].
      apply (keeps_dict_body _ _ _ _ (keeps_dumps fuel self h)).
    - eexists. split; [|by apply dumps_list].
      apply (keeps_list_body _ _ _ _ (keeps_dumps fuel self h)). }
  unfold _Encoder.bind.
  destruct (_Encoder.check_seen self addr st) as [[[] | e] st1] eqn:Hcs;
    [|discriminate].
  intros _. destruct (check_seen_marks self addr st st1 Hc Hcs) as [_ Hst1].
  destruct (Hbody st1) as [Hmono _]. apply Hmono. rewrite Hst1.
  by apply elem_of_union_l, elem_of_singleton.
Qed.

(** The state of an instance after a call never forgets a seen object. *)
Theorem X_seen_objects_accumulate :
  forall (fuel : nat) (self : _Encoder.t) (h : heap) (obj : value)
         (st : _Encoder.state),
    _Encoder._seen_objs st
    ⊆ _Encoder._seen_objs (snd (_Encoder.dumps fuel self h obj st)).
Proof. intros fuel self h obj st. apply (keeps_dumps fuel self h obj st). Qed.

(** A call of [dumps] that returns, returns text (never [None]) and
    leaves [_indent_level] at the value it had before the call. *)
Theorem X_returns_text_at_the_same_level :
  forall (fuel : nat) (self : _Encoder.t) (h : heap) (obj : value)
         (st st' : _Encoder.state) (r : ret),
    _Encoder.dumps fuel self h obj st = (Ok r, st') ->
    (exists s, r = RStr s) /\
    _Encoder._indent_level st' = _Encoder._indent_level st.
Proof.
  intros fuel self h obj st st' r Heq.
  destruct (keeps_dumps fuel self h obj st) as [_ Hok].
  rewrite Heq in Hok. destruct (Hok r eq_refl) as [Hlvl Hr]. simpl in Hlvl.
  split; [|lia]. destruct r as [s|]; [by exists s | done].
Qed.

Lemma X_returns_text_at_the_same_level_witness :
  (exists s, RStr (u "{a: 1}") = RStr s) /\
  _Encoder._indent_level
    (snd (_Encoder.dumps 2 encoder0 heap_a1 (VRef 1) state0))
  = _Encoder._indent_level state0.
Proof.
  apply (X_returns_text_at_the_same_level 2 encoder0 heap_a1 (VRef 1) state0
           (snd (_Encoder.dumps 2 encoder0 heap_a1 (VRef 1) state0))
           (RStr (u "{a: 1}"))).
  reflexivity.
Defined.

(** With the circular check on, an instance encodes a container once: a
    second call of [dumps] on the same instance for a container it has
    encoded raises [ValueError], the instance's state unchanged. *)
Theorem X_instance_refuses_second_call :
  forall (fuel fuel' : nat) (self : _Encoder.t) (h : heap) (addr : nat)
         (o : object) (st st' : _Encoder.state) (r : ret),
    _Encoder.check_circular self = true ->
    h !! addr = Some o ->
    _Encoder.dumps (S fuel) self h (VRef addr) st = (Ok r, st') ->
    _Encoder.dumps (S fuel') self h (VRef addr) st'
    = (Err (Exn ValueError (ArgValue (VRef addr))), st').
Proof.
  intros fuel fuel' self h addr o st st' r Hc Hh Heq.
  pose proof (dumps_marks fuel self h addr o st r Hc Hh) as Hin.
  rewrite Heq in Hin. specialize (Hin eq_refl). simpl in Hin.
  assert (_Encoder.check_seen self addr st'
          = (Err (Exn ValueError (ArgValue (VRef addr))), st')) as Hcs.
  { unfold _Encoder.check_seen. rewrite Hc.
    unfold _Encoder.bind, _Encoder.get. simpl.
    by destruct (decide (addr ∈ _Encoder._seen_objs st')). }
  destruct o as [items | els].
  - rewrite (dumps_dict fuel' self h addr items Hh).
    unfold _Encoder.bind. by rewrite Hcs.
  - rewrite (dumps_list fuel' self h addr els Hh).
    unfold _Encoder.bind. by rewrite Hcs.
Qed.

Lemma X_instance_refuses_second_call_witness :
  _Encoder.dumps 3 encoder0 heap_a1 (VRef 1)
    (snd (_Encoder.dumps 2 encoder0 heap_a1 (VRef 1) state0))
  = (Err (Exn ValueError (ArgValue (VRef 1))),
     snd (_Encoder.dumps 2 encoder0 heap_a1 (VRef 1) state0)).
Proof.
  apply (X_instance_refuses_second_call 1 2 encoder0 heap_a1 1%nat
           (ODict [(KStr (u "a"), VInt 1)]) state0
           (snd (_Encoder.dumps 2 encoder0 heap_a1 (VRef 1) state0))
           (RStr (u "{a: 1}"))); reflexivity.
Defined.

(* ===================================================================== *)
(** ** Depth of the recursion *)
(* ===================================================================== *)


















(** Without the check, a list that is its own first element is descended
    into until the stack is exhausted: whatever the limit, the call ends
    in [RecursionError]. *)
Theorem X_unchecked_cycle_overflows :
  forall (fuel : nat) (self : _Encoder.t) (h : heap) (addr : nat)
         (rest : list value) (st : _Encoder.state),
    _Encoder.check_circular self = false ->
    _Encoder.indent self = None ->
    h !! addr = Some (OList (VRef addr :: rest)) ->
    fst (_Encoder.dumps fuel self h (VRef addr) st)
    = Err (Exn RecursionError (ArgMsg "maximum recursion depth exceeded")).
Proof.
  intros fuel self h addr rest st Hc Hind Hh. revert st.
  induction fuel as [|fuel IH]; intros st; [reflexivity|].
  rewrite (dumps_list fuel self h addr _ Hh).
  unfold _Encoder.bind at 1. unfold _Encoder.check_seen. rewrite Hc. simpl.
  unfold list_body, _Encoder.local_indent. rewrite Hind.
  unfold _Encoder.bind, _Encoder.add_indent_level, _Encoder.get, _Encoder.put,
    _Encoder.pure. simpl.
  specialize (IH {| _Encoder._seen_objs := _Encoder._seen_objs st;
                    _Encoder._indent_level := _Encoder._indent_level st + 1 |}).
  unfold _Encoder.bind.
  destruct (_Encoder.dumps fuel self h (VRef addr) _) as [[r | e] st1];
    simpl in *; [discriminate | done].
Qed.

Lemma X_unchecked_cycle_overflows_witness :
  fst (_Encoder.dumps 50 (fst (_Encoder.init ascii_runtime kwargs_unchecked))
         heap_self (VRef 1) state0)
  = Err (Exn RecursionError (ArgMsg "maximum recursion depth exceeded")).
Proof.
  apply (X_unchecked_cycle_overflows 50
           (fst (_Encoder.init ascii_runtime kwargs_unchecked))
           heap_self 1%nat [] state0); reflexivity.
Defined.

(* ===================================================================== *)
(** ** Containers without indentation: the items joined *)
(* ===================================================================== *)

Lemma join_cons (sep t : pystr) (ts : list pystr) :
  join sep (t :: ts)
  = match ts with [] => t | _ :: _ => t ++ sep ++ join sep ts end.
Proof. reflexivity. Qed.

Lemma list_loop_joins (rec : value -> _Encoder.M ret) (self : _Encoder.t)
    (num_els : Z) (els : list value) (ts : list pystr) :
  Forall2 (fun el t => forall st, rec el st = (Ok (RStr t), st)) els ts ->
  forall (i : Z) (s : pystr) (st : _Encoder.state),
    i + Z.of_nat (List.length els) = num_els + 1 ->
    _Encoder.list_loop rec self [] num_els i els s st
    = (Ok (s ++ join (_Encoder._comma self) ts), st).
Proof.
  induction 1 as [|el t els ts Hel Hels IH]; intros i s st Hlen.
  - simpl. by rewrite app_nil_r.
  - cbn [_Encoder.list_loop]. unfold _Encoder.bind at 1. rewrite Hel.
    unfold _Encoder.bind at 1. cbn [_Encoder.lift _Encoder.str_add].
    rewrite IH by (simpl in Hlen; lia).
    rewrite join_cons. destruct Hels as [|el' t' els' ts' Hel' Hels'].
    + simpl in Hlen. destruct (Z.ltb_spec i num_els); [lia|].
      by rewrite !app_nil_r.
    + simpl in Hlen. destruct (Z.ltb_spec i num_els); [|lia].
      by rewrite app_nil_r, <- !app_assoc.
Qed.

Lemma add_indent_level_eq (d : Z) (st : _Encoder.state) :
  _Encoder.add_indent_level d st
  = (Ok tt, {| _Encoder._seen_objs := _Encoder._seen_objs st;
               _Encoder._indent_level := _Encoder._indent_level st + d |}).
Proof. reflexivity. Qed.

Lemma check_seen_passes (self : _Encoder.t) (addr : nat) (st : _Encoder.state) :
  _Encoder.check_circular self = false \/ (addr ∉ _Encoder._seen_objs st) ->
  exists st', _Encoder.check_seen self addr st = (Ok tt, st') /\
              _Encoder._indent_level st' = _Encoder._indent_level st.
Proof.
  intros H. unfold _Encoder.check_seen.
  destruct (_Encoder.check_circular self) eqn:Hc.
  - destruct H as [H | H]; [discriminate|].
    unfold _Encoder.bind, _Encoder.get. simpl.
    destruct (decide (addr ∈ _Encoder._seen_objs st)); [done|].
    eexists. split; reflexivity.
  - eexists. split; reflexivity.
Qed.

(** Without [indent], a list whose elements encode to [ts] is written as
    an opening bracket, the [ts] joined by the item separator, and a
    closing bracket: no separator after the last element, and [[]] for
    the empty list. *)
Theorem X_list_is_joined :
  forall (fuel : nat) (self : _Encoder.t) (h : heap) (addr : nat)
         (els : list value) (ts : list pystr) (st : _Encoder.state),
    _Encoder.indent self = None ->
    h !! addr = Some (OList els) ->
    _Encoder.check_circular self = false \/ (addr ∉ _Encoder._seen_objs st) ->
    Forall2 (encodes_to fuel self h) els ts ->
    fst (_Encoder.dumps (S fuel) self h (VRef addr) st)
    = Ok (RStr (u "[" ++ join (_Encoder._comma self) ts ++ u "]")).
Proof.
  intros fuel self h addr els ts st Hind Hh Hseen Hels.
  destruct (check_seen_passes self addr st Hseen) as (st1 & Hcs & _).
  rewrite (dumps_list fuel self h addr els Hh).
  unfold _Encoder.bind at 1. rewrite Hcs.
  unfold list_body, _Encoder.local_indent. rewrite Hind.
  unfold _Encoder.bind. rewrite add_indent_level_eq. cbv beta iota.
  unfold _Encoder.pure at 1. cbv beta iota.
  rewrite (list_loop_joins _ self _ els ts Hels) by lia.
  cbv beta iota. rewrite add_indent_level_eq. reflexivity.
Qed.

Lemma X_list_is_joined_witness :
  fst (_Encoder.dumps 2 encoder0 heap_scalars (VRef 1) state0)
  = Ok (RStr (u "[" ++ join (_Encoder._comma encoder0)
                         [u "1"; u "'a'"; u "null"] ++ u "]")).
Proof.
  apply (X_list_is_joined 1 encoder0 heap_scalars 1%nat
           [VInt 1; VStr (u "a"); VNone] [u "1"; u "'a'"; u "null"] state0).
  - reflexivity.
  - reflexivity.
  - right. simpl. apply not_elem_of_empty.
  - repeat constructor.
Defined.

Lemma dict_getitem_of_item (items : list (key * value)) :
  NoDup (List.map fst items) ->
  Forall (fun kv => dict_getitem items (fst kv) = Ok (snd kv)) items.
Proof.
  induction items as [|[k v] items IH]; intros Hnd; constructor.
  - simpl. by rewrite decide_True.
  - apply NoDup_cons in Hnd as [Hk Hnd].
    specialize (IH Hnd). rewrite Forall_forall in IH |- *.
    intros [k' v'] Hin. simpl. rewrite decide_False; [by apply (IH (k', v'))|].
    intros ->. apply Hk, list_elem_of_In.
    apply (in_map fst items (k', v')). by apply list_elem_of_In.
Qed.

Lemma dict_loop_joins (fuel : nat) (self : _Encoder.t) (h : heap)
    (items : list (key * value)) (num_keys : Z)
    (kvs : list (key * value)) (ps : list pystr) :
  Forall2 (entry_of fuel self h) kvs ps ->
  Forall (fun kv => dict_getitem items (fst kv) = Ok (snd kv)) kvs ->
  forall (i : Z) (s : pystr) (st : _Encoder.state),
    i + Z.of_nat (List.length kvs) = num_keys + 1 ->
    _Encoder.dict_loop (_Encoder.dumps fuel self h) self [] items num_keys i
      (List.map fst kvs) s st
    = (Ok (s ++ join (_Encoder._comma self) ps), st).
Proof.
  induction 1 as [|[k v] p kvs ps Hkv Hkvs IH]; intros Hget i s st Hlen.
  - simpl. by rewrite app_nil_r.
  - apply Forall_cons in Hget as [Hk Hget]. simpl in Hk.
    destruct Hkv as (ek & t & Hvalid & Hek & Ht & ->). simpl in Hvalid, Hek, Ht.
    cbn [List.map fst _Encoder.dict_loop].
    rewrite bool_decide_eq_true_2 by done. cbn [negb].
    unfold _Encoder.bind at 1. rewrite Hek. cbn [_Encoder.lift].
    unfold _Encoder.bind at 1. rewrite Hk. cbn [_Encoder.lift].
    unfold _Encoder.bind at 1. rewrite Ht.
    unfold _Encoder.bind at 1. cbn [_Encoder.lift _Encoder.str_add].
    rewrite IH by (try done; simpl in Hlen; lia).
    rewrite join_cons. destruct Hkvs as [|kv' p' kvs' ps' Hkv' Hkvs'].
    + simpl in Hlen. destruct (Z.ltb_spec i num_keys); [lia|].
      by rewrite !app_nil_r, <- !app_assoc.
    + simpl in Hlen. destruct (Z.ltb_spec i num_keys); [|lia].
      by rewrite app_nil_r, <- !app_assoc.
Qed.

(** Without [indent] and [sort_keys], a dict is written as an opening
    brace, its entries in the dict's own order joined by the item
    separator, and a closing brace; each entry is the rendered key, the
    key separator and the text of the value. *)
Theorem X_dict_is_joined :
  forall (fuel : nat) (self : _Encoder.t) (h : heap) (addr : nat)
         (items : list (key * value)) (ps : list pystr) (st : _Encoder.state),
    _Encoder.indent self = None ->
    _Encoder.sort_keys self = false ->
    h !! addr = Some (ODict items) ->
    _Encoder.check_circular self = false \/ (addr ∉ _Encoder._seen_objs st) ->
    NoDup (List.map fst items) ->
    Forall2 (entry_of fuel self h) items ps ->
    fst (_Encoder.dumps (S fuel) self h (VRef addr) st)
    = Ok (RStr (u "{" ++ join (_Encoder._comma self) ps ++ u "}")).
Proof.
  intros fuel self h addr items ps st Hind Hsort Hh Hseen Hnd Hitems.
  destruct (check_seen_passes self addr st Hseen) as (st1 & Hcs & _).
  rewrite (dumps_dict fuel self h addr items Hh).
  unfold _Encoder.bind at 1. rewrite Hcs.
  unfold dict_body, _Encoder.local_indent. rewrite Hind, Hsort.
  unfold _Encoder.bind. unfold _Encoder.pure at 1. cbv beta iota.
  rewrite add_indent_level_eq. cbv beta iota.
  unfold _Encoder.pure at 1. cbv beta iota.
  rewrite (dict_loop_joins fuel self h items _ items ps Hitems
             (dict_getitem_of_item items Hnd))
    by (rewrite length_map; lia).
  cbv beta iota. rewrite add_indent_level_eq. reflexivity.
Qed.

Lemma X_dict_is_joined_witness :
  fst (_Encoder.dumps 2 encoder0 heap_two_keys (VRef 1) state0)
  = Ok (RStr (u "{" ++ join (_Encoder._comma encoder0)
                         [u "a: 1"; u "'b c': true"] ++ u "}")).
Proof.
  apply (X_dict_is_joined 1 encoder0 heap_two_keys 1%nat
           [(KStr (u "a"), VInt 1); (KStr (u "b c"), VBool true)]
           [u "a: 1"; u "'b c': true"] state0).
  - reflexivity.
  - reflexivity.
  - reflexivity.
  - right. simpl. apply not_elem_of_empty.
  - simpl. repeat constructor; rewrite ?list_elem_of_In; simpl;
      intros H; repeat (destruct H as [H | H]; [discriminate H|]); done.
  - constructor; [|constructor; [|constructor]].
    + exists (u "a"), (u "1"). repeat split. cbn. repeat constructor.
    + exists (u "'b c'"), (u "true"). repeat split. cbn. repeat constructor.
Defined.

(* ===================================================================== *)
(** ** Escapes: what reaches the output *)
(* ===================================================================== *)

Lemma hex_digit_hexchar (d : Z) :
  0 <= d < 16 -> hexchar (hex_digit d).
Proof.
  intros Hd. unfold hexchar, hex_digit. destruct (Z.ltb_spec d 10); lia.
Qed.

Lemma hex_loop_hexchars (fuel : nat) (n : Z) (acc : pystr) :
  0 <= n -> Forall hexchar acc -> Forall hexchar (hex_loop fuel n acc).
Proof.
  revert n acc. induction fuel as [|fuel IH]; intros n acc Hn Hacc; simpl.
  - done.
  - destruct (Z.ltb_spec n 16).
    + constructor; [apply hex_digit_hexchar; lia | done].
    + apply IH; [apply Z.div_pos; lia|].
      constructor; [|done]. apply hex_digit_hexchar.
      pose proof (Z.mod_pos_bound n 16). lia.
Qed.

Lemma fmt_04x_hexchars (n : Z) :
  0 <= n -> Forall hexchar (fmt_04x n).
Proof.
  intros Hn. unfold fmt_04x. apply Forall_app. split.
  - apply Forall_forall. intros x Hx. apply list_elem_of_In in Hx.
    apply repeat_spec in Hx as ->. left. lia.
  - apply hex_loop_hexchars; [done | constructor].
Qed.

Lemma u4_hexchars (c : Z) :
  0 <= c < 65536 -> Forall hexchar (u4 c).
Proof.
  intros Hc. rewrite <- fmt_04x_u4 by done. apply fmt_04x_hexchars. lia.
Qed.

Lemma esc_char_ascii (c : Z) (esc_squote esc_dquote : bool) :
  0 <= c ->
  Forall (fun x => 32 <= x < 128) (_Encoder._esc_char c esc_squote esc_dquote).
Proof.
  intros Hc. unfold _Encoder._esc_char, bslash, squote, dquote.
  destruct ((c =? 34) && esc_dquote).
  { repeat constructor; lia. }
  destruct ((c =? 39) && esc_squote).
  { repeat constructor; lia. }
  destruct (Z.leb_spec 32 c), (Z.ltb_spec c 128); simpl;
    try (repeat constructor; lia);
    (constructor; [lia|]; constructor; [lia|];
     eapply Forall_impl; [by apply fmt_04x_hexchars|];
     unfold hexchar; simpl; intros; lia).
Qed.

(** With [ensure_ascii], the text of a string of code points consists of
    characters from 32 to 127 only, quotes and escapes included. *)
Theorem X_ensure_ascii_strings :
  forall (fuel : nat) (self : _Encoder.t) (h : heap) (st : _Encoder.state)
         (s : pystr),
    _Encoder.ensure_ascii self = true ->
    Forall (fun c => 0 <= c) s ->
    exists t,
      _Encoder.dumps (S fuel) self h (VStr s) st = (Ok (RStr t), st) /\
      Forall (fun x => 32 <= x < 128) t.
Proof.
  intros fuel self h st s Ha Hs.
  assert (forall a b,
             Forall (fun x => 32 <= x < 128) (_Encoder._esc_str self s a b))
    as Hbody.
  { intros a b. unfold _Encoder._esc_str. rewrite Ha. simpl.
    induction Hs as [|c s Hc Hs IH]; simpl; [constructor|].
    apply Forall_app. split; [by apply esc_char_ascii | done]. }
  simpl. destruct (negb (char_in squote s)); eexists; (split; [reflexivity|]);
    (constructor; [unfold squote, dquote; lia|]);
    (apply Forall_app; split; [apply Hbody|]);
    (constructor; [unfold squote, dquote; lia | constructor]).
Qed.

Lemma X_ensure_ascii_strings_witness :
  exists t,
    _Encoder.dumps 1 encoder0 ∅ (VStr [233; 10; 128512]) state0
    = (Ok (RStr t), state0) /\
    Forall (fun x => 32 <= x < 128) t.
Proof.
  apply (X_ensure_ascii_strings 0 encoder0 ∅ state0 [233; 10; 128512]).
  - reflexivity.
  - repeat constructor; lia.
Defined.




Lemma esc_char_verbatim (x : Z) :
  32 <= x < 128 -> x <> squote ->
  _Encoder._esc_char x true false = [x].
Proof.
  intros Hx Hs. unfold _Encoder._esc_char, squote in *.
  rewrite andb_false_r.
  destruct (Z.eqb_spec x 39); [done|]. simpl.
  destruct (Z.leb_spec 32 x), (Z.ltb_spec x 128); simpl; try lia. done.
Qed.

Lemma esc_char_escape (c : Z) (esc_squote esc_dquote : bool) :
  0 <= c < 32 \/ 128 <= c <= 65535 ->
  _Encoder._esc_char c esc_squote esc_dquote = bslash :: 117 :: u4 c.
Proof.
  intros Hc. unfold _Encoder._esc_char, squote, dquote.
  destruct (Z.eqb_spec c 34); [lia|]. destruct (Z.eqb_spec c 39); [lia|].
  simpl. destruct (Z.leb_spec 32 c), (Z.ltb_spec c 128); simpl; try lia;
    rewrite fmt_04x_u4 by lia; reflexivity.
Qed.

Lemma char_in_false (c : Z) (s : pystr) :
  Forall (fun x => x <> c) s -> char_in c s = false.
Proof.
  intros Hs. destruct (char_in c s) eqn:Hin; [|done].
  apply char_in_spec in Hin. rewrite Forall_forall in Hs.
  by destruct (Hs c Hin).
Qed.

Lemma dumps_str (fuel : nat) (self : _Encoder.t) (h : heap) (s : pystr)
    (st : _Encoder.state) :
  _Encoder.dumps (S fuel) self h (VStr s) st
  = (Ok (RStr (if char_in squote s
               then dquote :: _Encoder._esc_str self s false true ++ [dquote]
               else squote :: _Encoder._esc_str self s true false ++ [squote])),
     st).
Proof. simpl. destruct (char_in squote s); reflexivity. Qed.

Lemma esc_str_ascii (self : _Encoder.t) (s : pystr) (a b : bool) :
  _Encoder.ensure_ascii self = true ->
  _Encoder._esc_str self s a b
  = concat (List.map (fun ch => _Encoder._esc_char ch a b) s).
Proof. intros Ha. unfold _Encoder._esc_str. by rewrite Ha. Qed.

(** The backslash is not escaped, so the encoding of strings is not
    injective: with [ensure_ascii], a string of one character that needs
    an escape and the six-character string spelling that escape have the
    same text. *)
Theorem X_escape_collides_with_its_spelling :
  forall (fuel : nat) (self : _Encoder.t) (h : heap) (st : _Encoder.state)
         (c : Z),
    _Encoder.ensure_ascii self = true ->
    0 <= c < 32 \/ 128 <= c <= 65535 ->
    [c] <> bslash :: 117 :: u4 c /\
    _Encoder.dumps (S fuel) self h (VStr [c]) st
    = _Encoder.dumps (S fuel) self h (VStr (bslash :: 117 :: u4 c)) st.
Proof.
  intros fuel self h st c Ha Hc. split; [discriminate|].
  pose proof (u4_hexchars c ltac:(lia)) as Hhex.
  assert (Forall (fun x => 32 <= x < 128 /\ x <> squote)
            (bslash :: 117 :: u4 c)) as Hplain.
  { constructor; [unfold bslash, squote; lia|].
    constructor; [unfold squote; lia|].
    eapply Forall_impl; [exact Hhex|].
    unfold hexchar, squote. simpl. intros; lia. }
  rewrite !dumps_str, !esc_str_ascii by done.
  rewrite (char_in_false squote [c])
    by (constructor; [unfold squote; lia | constructor]).
  rewrite (char_in_false squote (bslash :: 117 :: u4 c))
    by (eapply Forall_impl; [exact Hplain|]; simpl; intros; lia).
  assert (forall l, Forall (fun x => 32 <= x < 128 /\ x <> squote) l ->
             concat (List.map (fun ch => _Encoder._esc_char ch true false) l)
             = l) as Hid.
  { induction 1 as [|x l [Hx Hs] Hl IH]; simpl; [done|].
    by rewrite esc_char_verbatim, IH. }
  rewrite (Hid _ Hplain). cbn [List.map concat].
  rewrite esc_char_escape by done. by rewrite app_nil_r.
Qed.

Lemma X_escape_collides_with_its_spelling_witness :
  [233] <> bslash :: 117 :: u4 233 /\
  _Encoder.dumps 1 encoder0 ∅ (VStr [233]) state0
  = _Encoder.dumps 1 encoder0 ∅ (VStr (bslash :: 117 :: u4 233)) state0.
Proof.
  apply (X_escape_collides_with_its_spelling 0 encoder0 ∅ state0 233).
  - reflexivity.
  - right. lia.
Defined.

(* ===================================================================== *)
(** ** Keys: bare or quoted *)
(* ===================================================================== *)



(* ===================================================================== *)
(** ** The decoder's objects and arrays *)
(* ===================================================================== *)






Lemma node_nested_ind (P : _Decoder.node -> Prop) :
  (forall t v, P (_Decoder.Leaf t v)) ->
  (forall lit, P (_Decoder.Number lit)) ->
  (forall pairs, Forall (fun kv => P (snd kv)) pairs -> P (_Decoder.Object pairs)) ->
  (forall els, Forall P els -> P (_Decoder.Array els)) ->
  forall n, P n.
Proof.
  intros HLeaf HNumber HObject HArray.
  fix IH 1. intros [t v | lit | pairs | els].
  - apply HLeaf.
  - apply HNumber.
  - apply HObject. induction pairs as [|[k n] pairs IHp]; constructor.
    + apply IH.
    + apply IHp.
  - apply HArray. induction els as [|n els IHe]; constructor.
    + apply IH.
    + apply IHe.
Qed.

Lemma extends_pure {A} (a : A) : extends_heap (_Decoder.pure a).
Proof. intros h a' h' [= _ <-]. done. Qed.

Lemma extends_bind {A B} (m : _Decoder.D A) (k : A -> _Decoder.D B) :
  extends_heap m -> (forall a, extends_heap (k a)) ->
  extends_heap (_Decoder.bind m k).
Proof.
  intros Hm Hk h b h' Heq. unfold _Decoder.bind in Heq.
  destruct (m h) as [[a h1] | e] eqn:Hmh; [|discriminate].
  trans h1; [by apply (Hm h a) | by apply (Hk a h1 b)].
Qed.

Lemma extends_lift {A} (r : result A) : extends_heap (_Decoder.lift r).
Proof.
  intros h a h' Heq. unfold _Decoder.lift in Heq.
  destruct r; simpl in Heq; [|discriminate]. by injection Heq as _ <-.
Qed.

Lemma extends_alloc (o : object) : extends_heap (_Decoder.alloc o).
Proof.
  intros h a h' [= _ <-].
  apply insert_subseteq, not_elem_of_dom, is_fresh.
Qed.

(** The hooks [__init__] installs by default only add objects. *)
Lemma default_hooks_extend (rt : runtime) :
  hooks_extend (_Decoder.init rt _Decoder.no_kwargs).
Proof.
  repeat split; simpl; intros; first [apply extends_lift | apply extends_alloc].
Qed.

Lemma walk_array (self : _Decoder.t) (els : list _Decoder.node) :
  _Decoder.walk self (_Decoder.Array els)
  = _Decoder.bind
      ((fix walk_els (l : list _Decoder.node) : _Decoder.D (list value) :=
          match l with
          | [] => _Decoder.pure []
          | el :: l' =>
              _Decoder.bind (_Decoder.walk self el) (fun v =>
              _Decoder.bind (walk_els l') (fun r => _Decoder.pure (v :: r)))
          end) els)
      (fun els => _Decoder.alloc (OList els)).
Proof. reflexivity. Qed.

Lemma walk_object (self : _Decoder.t) (pairs : list (pystr * _Decoder.node)) :
  _Decoder.walk self (_Decoder.Object pairs)
  = _Decoder.bind
      ((fix walk_pairs (l : list (pystr * _Decoder.node))
          : _Decoder.D (list (pystr * value)) :=
          match l with
          | [] => _Decoder.pure []
          | (key, val) :: l' =>
              _Decoder.bind (_Decoder.walk self val) (fun v =>
              _Decoder.bind (walk_pairs l') (fun r =>
              _Decoder.pure ((key, v) :: r)))
          end) pairs)
      (fun pairs => _Decoder.object_pairs_hook self pairs).
Proof. reflexivity. Qed.

Lemma walk_extends (self : _Decoder.t)
    (ast_node : _Decoder.node) :
  hooks_extend self -> extends_heap (_Decoder.walk self ast_node).
Proof.
  intros (Hfloat & Hint & Hconst & Hpairs).
  induction ast_node as [t v | lit | pairs IH | els IH] using node_nested_ind.
  - apply extends_pure.
  - rewrite walk_number.
    destruct (_ || _); [apply Hint|].
    destruct (_ || _); [apply Hfloat|].
    destruct (_ || _); [apply Hconst | apply Hint].
  - rewrite walk_object. apply extends_bind; [|apply Hpairs].
    induction IH as [|[k n] pairs Hn Hrest IHrest]; [apply extends_pure|].
    apply extends_bind; [exact Hn|]. intros v.
    apply extends_bind; [exact IHrest|]. intros r. apply extends_pure.
  - rewrite walk_array. apply extends_bind; [|intros; apply extends_alloc].
    induction IH as [|n els Hn Hrest IHrest]; [apply extends_pure|].
    apply extends_bind; [exact Hn|]. intros v.
    apply extends_bind; [exact IHrest|]. intros r. apply extends_pure.
Qed.

(** Decoding never touches an object that exists: when the hooks only
    add objects to the heap, so does [walk], for every tree. *)
Theorem X_walk_only_adds_objects :
  forall (self : _Decoder.t) (ast_node : _Decoder.node),
    hooks_extend self ->
    extends_heap (_Decoder.walk self ast_node).
Proof. intros self ast_node. apply walk_extends. Qed.

Lemma X_walk_only_adds_objects_witness :
  extends_heap
    (_Decoder.walk decoder0
       (_Decoder.Array [_Decoder.Number (u "1");
                        _Decoder.Object [(u "a", _Decoder.Number (u "0x1A"))]])).
Proof.
  apply (X_walk_only_adds_objects decoder0).
  apply (default_hooks_extend ascii_runtime).
Defined.



(* ===================================================================== *)
(** ** Integers: from value to text and back *)
(* ===================================================================== *)








(* ===================================================================== *)
(** ** Skipped keys *)
(* ===================================================================== *)

(** The loop over a run of keys that all have a later key after them:
    every entry is followed by the item separator. *)
Lemma dict_loop_prefix (fuel : nat) (self : _Encoder.t) (h : heap)
    (items : list (key * value)) (num_keys : Z)
    (kvs : list (key * value)) (ps : list pystr) (rest : list key) :
  Forall2 (entry_of fuel self h) kvs ps ->
  Forall (fun kv => dict_getitem items (fst kv) = Ok (snd kv)) kvs ->
  forall (i : Z) (s : pystr) (st : _Encoder.state),
    i + Z.of_nat (List.length kvs) <= num_keys ->
    _Encoder.dict_loop (_Encoder.dumps fuel self h) self [] items num_keys i
      (List.map fst kvs ++ rest) s st
    = _Encoder.dict_loop (_Encoder.dumps fuel self h) self [] items num_keys
        (i + Z.of_nat (List.length kvs)) rest
        (s ++ concat (List.map (fun p => p ++ _Encoder._comma self) ps)) st.
Proof.
  induction 1 as [|[k v] p kvs ps Hkv Hkvs IH]; intros Hget i s st Hlen.
  - simpl. by rewrite app_nil_r, Z.add_0_r.
  - apply Forall_cons in Hget as [Hk Hget]. simpl in Hk.
    destruct Hkv as (ek & t & Hvalid & Hek & Ht & ->). simpl in Hvalid, Hek, Ht.
    cbn [List.map fst app _Encoder.dict_loop].
    rewrite bool_decide_eq_true_2 by done. cbn [negb].
    unfold _Encoder.bind at 1. rewrite Hek. cbn [_Encoder.lift].
    unfold _Encoder.bind at 1. rewrite Hk. cbn [_Encoder.lift].
    unfold _Encoder.bind at 1. rewrite Ht.
    unfold _Encoder.bind at 1. cbn [_Encoder.lift _Encoder.str_add].
    simpl in Hlen. destruct (Z.ltb_spec i num_keys); [|lia].
    rewrite IH by (try done; lia).
    f_equal.
    + cbn [List.length]. lia.
    + simpl. by rewrite app_nil_r, <- !app_assoc.
Qed.

(** Under [skipkeys], when the last key of a dict is of a class that is
    not accepted, its entry is left out but the separator written after
    the entry before it stays: the text ends with the item separator and
    the closing brace. *)
Theorem X_skipped_last_key_leaves_separator :
  forall (fuel : nat) (self : _Encoder.t) (h : heap) (addr : nat)
         (items : list (key * value)) (k : key) (v : value)
         (ps : list pystr) (st : _Encoder.state),
    _Encoder.skipkeys self = true ->
    _Encoder.indent self = None ->
    _Encoder.sort_keys self = false ->
    h !! addr = Some (ODict (items ++ [(k, v)])) ->
    (type_of_key k ∉ _Encoder._valid_key_types self) ->
    _Encoder.check_circular self = false \/ (addr ∉ _Encoder._seen_objs st) ->
    NoDup (List.map fst (items ++ [(k, v)])) ->
    Forall2 (entry_of fuel self h) items ps ->
    fst (_Encoder.dumps (S fuel) self h (VRef addr) st)
    = Ok (RStr (u "{"
                ++ concat (List.map (fun p => p ++ _Encoder._comma self) ps)
                ++ u "}")).
Proof.
  intros fuel self h addr items k v ps st Hskip Hind Hsort Hh Hbad Hseen Hnd
    Hitems.
  destruct (check_seen_passes self addr st Hseen) as (st1 & Hcs & _).
  rewrite (dumps_dict fuel self h addr _ Hh).
  unfold _Encoder.bind at 1. rewrite Hcs.
  unfold dict_body, _Encoder.local_indent. rewrite Hind, Hsort.
  unfold _Encoder.bind. unfold _Encoder.pure at 1. cbv beta iota.
  rewrite add_indent_level_eq. cbv beta iota.
  unfold _Encoder.pure at 1. cbv beta iota.
  pose proof (dict_getitem_of_item _ Hnd) as Hget.
  apply Forall_app in Hget as [Hget _].
  rewrite map_app. cbn [List.map fst].
  rewrite (dict_loop_prefix fuel self h _ _ items ps [k] Hitems Hget)
    by (rewrite ?length_app, ?length_map; simpl; lia).
  cbn [_Encoder.dict_loop].
  rewrite bool_decide_eq_false_2 by done. cbn [negb]. rewrite Hskip.
  cbn [_Encoder.pure]. cbv beta iota.
  rewrite add_indent_level_eq. reflexivity.
Qed.

Lemma X_skipped_last_key_leaves_separator_witness :
  fst (_Encoder.dumps 2 (fst (_Encoder.init ascii_runtime kwargs_skipkeys))
         heap_bytes_key_last (VRef 1) state0)
  = Ok (RStr (u "{"
              ++ concat (List.map (fun p => p ++ u ", ") [u "a: 1"])
              ++ u "}")).
Proof.
  apply (X_skipped_last_key_leaves_separator 1
           (fst (_Encoder.init ascii_runtime kwargs_skipkeys))
           heap_bytes_key_last 1%nat [(KStr (u "a"), VInt 1)]
           (KBytes [107]) (VInt 2) [u "a: 1"] state0).
  - reflexivity.
  - reflexivity.
  - reflexivity.
  - reflexivity.
  - simpl. rewrite list_elem_of_In. simpl.
    intros H; repeat (destruct H as [H | H]; [discriminate H|]); done.
  - right. simpl. apply not_elem_of_empty.
  - simpl. repeat constructor; rewrite ?list_elem_of_In; simpl;
      intros H; repeat (destruct H as [H | H]; [discriminate H|]); done.
  - constructor; [|constructor].
    exists (u "a"), (u "1"). repeat split. cbn. repeat constructor.
Defined.

(* ===================================================================== *)
(** ** Hexadecimal literals *)
(* ===================================================================== *)

Lemma py_int_base16 (x d : Z) (ds : pystr) :
  x = 120 \/ x = 88 ->
  py_int (48 :: x :: d :: ds) (Some 16)
  = match digits_val 16 0 (d :: ds) with
    | Some n => Ok n
    | None => Err (Exn ValueError (ArgMsg "invalid literal for int()"))
    end.
Proof. intros [-> | ->]; reflexivity. Qed.

(** With the default hooks, a literal made of the prefix [0x] or [0X]
    and hexadecimal digits decodes to the integer those digits denote in
    base 16, also when digits [e] or [E] occur among them: the prefix is
    tested before the exponent marker. *)
Theorem X_hex_literal_is_an_integer :
  forall (rt : runtime) (ds : pystr) (v : Z) (h : heap),
    ds <> [] ->
    digits_val 16 0 ds = Some v ->
    _Decoder.walk (_Decoder.init rt _Decoder.no_kwargs)
      (_Decoder.Number (u "0x" ++ ds)) h = Ok (VInt v, h) /\
    _Decoder.walk (_Decoder.init rt _Decoder.no_kwargs)
      (_Decoder.Number (u "0X" ++ ds)) h = Ok (VInt v, h).
Proof.
  intros rt ds v h Hne Hval.
  destruct ds as [|d ds]; [done|].
  split; rewrite walk_number.
  - replace (startswith (u "0x") (u "0x" ++ d :: ds)) with true
      by (symmetry; apply startswith_spec; by eexists).
    cbn [orb]. change (u "0x" ++ d :: ds) with (48 :: 120 :: d :: ds).
    change (_Decoder.parse_int (_Decoder.init rt _Decoder.no_kwargs))
      with _Decoder.int_.
    unfold _Decoder.int_, _Decoder.lift.
    rewrite py_int_base16 by (by left). by rewrite Hval.
  - replace (startswith (u "0X") (u "0X" ++ d :: ds)) with true
      by (symmetry; apply startswith_spec; by eexists).
    rewrite orb_true_r. change (u "0X" ++ d :: ds) with (48 :: 88 :: d :: ds).
    change (_Decoder.parse_int (_Decoder.init rt _Decoder.no_kwargs))
      with _Decoder.int_.
    unfold _Decoder.int_, _Decoder.lift.
    rewrite py_int_base16 by (by right). by rewrite Hval.
Qed.

Lemma X_hex_literal_is_an_integer_witness :
  _Decoder.walk (_Decoder.init ascii_runtime _Decoder.no_kwargs)
    (_Decoder.Number (u "0x" ++ u "1E3")) ∅ = Ok (VInt 483, ∅) /\
  _Decoder.walk (_Decoder.init ascii_runtime _Decoder.no_kwargs)
    (_Decoder.Number (u "0X" ++ u "1E3")) ∅ = Ok (VInt 483, ∅).
Proof.
  apply (X_hex_literal_is_an_integer ascii_runtime (u "1E3") 483 ∅).
  - discriminate.
  - reflexivity.
Defined.

Lemma str_in_false (p s : pystr) (c : Z) :
  c ∈ p -> (c ∉ s) -> str_in p s = false.
Proof.
  intros Hp Hs. destruct (str_in p s) eqn:Hin; [|done].
  apply str_in_spec in Hin as (pre & post & ->).
  destruct Hs. apply elem_of_app. right. apply elem_of_app. by left.
Qed.

(** A hexadecimal literal with a sign in front is not decoded as one: it
    does not start with the prefix, so, its digits being free of [e] and
    [E], it reaches the default integer parser without a base, which
    raises [ValueError]. *)
Theorem X_signed_hex_literal_is_refused :
  forall (rt : runtime) (sign : Z) (ds : pystr) (h : heap),
    sign = 45 \/ sign = 43 ->
    Forall hex_digit_not_e ds ->
    _Decoder.walk (_Decoder.init rt _Decoder.no_kwargs)
      (_Decoder.Number (sign :: u "0x" ++ ds)) h
    = Err (Exn ValueError (ArgMsg "invalid literal for int()")).
Proof.
  intros rt sign ds h Hsign Hds. rewrite walk_number.
  assert (forall c, c <> sign -> c <> 48 -> c <> 120 ->
             ~ hex_digit_not_e c -> c ∉ sign :: u "0x" ++ ds) as Hlacks.
  { intros c H1 H2 H3 H4 Hin.
    apply elem_of_cons in Hin as [-> | Hin]; [done|].
    apply elem_of_cons in Hin as [-> | Hin]; [done|].
    apply elem_of_cons in Hin as [-> | Hin]; [done|].
    rewrite Forall_forall in Hds. by apply H4, Hds. }
  assert (startswith (u "0x") (sign :: u "0x" ++ ds)
          || startswith (u "0X") (sign :: u "0x" ++ ds) = false) as ->.
  { destruct Hsign as [-> | ->]; reflexivity. }
  assert (char_in 46 (sign :: u "0x" ++ ds)
          || char_in 101 (sign :: u "0x" ++ ds)
          || char_in 69 (sign :: u "0x" ++ ds) = false) as ->.
  { rewrite !char_in_false; [done | | |];
      apply Forall_forall; intros x Hx ->; revert Hx; apply Hlacks;
      unfold hex_digit_not_e; lia. }
  assert (str_in (u "Infinity") (sign :: u "0x" ++ ds)
          || str_in (u "NaN") (sign :: u "0x" ++ ds) = false) as ->.
  { rewrite (str_in_false (u "Infinity") _ 73), (str_in_false (u "NaN") _ 78);
      [done | | | |];
      try (apply list_elem_of_In; simpl; tauto);
      apply Hlacks; unfold hex_digit_not_e; lia. }
  simpl. unfold _Decoder.int_, _Decoder.lift, py_int.
  destruct Hsign as [-> | ->]; reflexivity.
Qed.

Lemma X_signed_hex_literal_is_refused_witness :
  _Decoder.walk (_Decoder.init ascii_runtime _Decoder.no_kwargs)
    (_Decoder.Number (45 :: u "0x" ++ u "1A")) ∅
  = Err (Exn ValueError (ArgMsg "invalid literal for int()")).
Proof.
  apply (X_signed_hex_literal_is_refused ascii_runtime 45 (u "1A") ∅).
  - by left.
  - repeat constructor; unfold hex_digit_not_e; simpl; lia.
Defined.

(* ===================================================================== *)
(** ** An instance without the circular check *)
(* ===================================================================== *)

Lemma leaves_seen_bind {A B} (m : _Encoder.M A) (k : A -> _Encoder.M B) :
  leaves_seen m -> (forall a, leaves_seen (k a)) ->
  leaves_seen (_Encoder.bind m k).
Proof.
  intros Hm Hk st. unfold _Encoder.bind. specialize (Hm st).
  destruct (m st) as [[a | e] st1]; simpl in *; [|done].
  by rewrite Hk.
Qed.

Lemma leaves_seen_const {A} (r : result A) :
  leaves_seen (_Encoder.lift r).
Proof. intros st. reflexivity. Qed.

Lemma leaves_seen_add_indent_level (d : Z) :
  leaves_seen (_Encoder.add_indent_level d).
Proof. intros st. reflexivity. Qed.

Lemma leaves_seen_local_indent (self : _Encoder.t) :
  leaves_seen (_Encoder.local_indent self).
Proof.
  intros st. unfold _Encoder.local_indent.
  by destruct (_Encoder.indent self).
Qed.

Lemma leaves_seen_list_body (rec : value -> _Encoder.M ret)
    (self : _Encoder.t) (els : list value) :
  (forall v, leaves_seen (rec v)) -> leaves_seen (list_body rec self els).
Proof.
  intros Hrec. unfold list_body.
  apply leaves_seen_bind; [apply leaves_seen_add_indent_level|]. intros _.
  apply leaves_seen_bind; [apply leaves_seen_local_indent|]. intros ind.
  apply leaves_seen_bind.
  { generalize (u "[" ++ ind) as s. generalize 0 as i.
    generalize (Z.of_nat (List.length els) - 1) as num_els.
    induction els as [|el els IH]; intros num_els i s; simpl.
    - by intros st.
    - apply leaves_seen_bind; [apply Hrec|]. intros r.
      apply leaves_seen_bind; [apply leaves_seen_const|]. intros s'.
      apply IH. }
  intros s. apply leaves_seen_bind; [apply leaves_seen_add_indent_level|].
  by intros _ st.
Qed.

Lemma leaves_seen_dict_body (rec : value -> _Encoder.M ret)
    (self : _Encoder.t) (items : list (key * value)) :
  (forall v, leaves_seen (rec v)) -> leaves_seen (dict_body rec self items).
Proof.
  intros Hrec. unfold dict_body.
  apply leaves_seen_bind.
  { destruct (_Encoder.sort_keys self); by intros st. }
  intros keys.
  apply leaves_seen_bind; [apply leaves_seen_add_indent_level|]. intros _.
  apply leaves_seen_bind; [apply leaves_seen_local_indent|]. intros ind.
  apply leaves_seen_bind.
  { generalize (u "{" ++ ind) as s. generalize 0 as i.
    generalize (Z.of_nat (List.length keys) - 1) as num_keys.
    induction keys as [|k keys IH]; intros num_keys i s; simpl.
    - by intros st.
    - destruct (negb _).
      + destruct (_Encoder.skipkeys self); [apply IH | by intros st].
      + apply leaves_seen_bind; [apply leaves_seen_const|]. intros ek.
        apply leaves_seen_bind; [apply leaves_seen_const|]. intros v.
        apply leaves_seen_bind; [apply Hrec|]. intros r.
        apply leaves_seen_bind; [apply leaves_seen_const|]. intros piece.
        apply IH. }
  intros s. apply leaves_seen_bind; [apply leaves_seen_add_indent_level|].
  by intros _ st.
Qed.

Lemma leaves_seen_dumps (self : _Encoder.t) (h : heap) :
  _Encoder.check_circular self = false ->
  forall fuel obj, leaves_seen (_Encoder.dumps fuel self h obj).
Proof.
  intros Hc fuel. induction fuel as [|fuel IH]; intros obj; [by intros st|].
  destruct obj as [| [|] | n | f | s | bs | items | addr];
    try (by intros st).
  - intros st. simpl. unfold _Encoder.bind.
    by destruct (_Encoder.allow_nan self).
  - intros st. simpl. by destruct (negb _).
  - destruct (h !! addr) as [[items | els] |] eqn:Hh.
    + rewrite (dumps_dict fuel self h addr items Hh).
      apply leaves_seen_bind; [|intros _; by apply leaves_seen_dict_body].
      intros st. unfold _Encoder.check_seen. by rewrite Hc.
    + rewrite (dumps_list fuel self h addr els Hh).
      apply leaves_seen_bind; [|intros _; by apply leaves_seen_list_body].
      intros st. unfold _Encoder.check_seen. by rewrite Hc.
    + intros st. simpl. by rewrite Hh.
Qed.

(** Without the circular check, a call of [dumps] that returns leaves
    the instance exactly as it was: the same instance can encode again,
    the same container included. *)
Theorem X_unchecked_call_leaves_the_instance :
  forall (fuel : nat) (self : _Encoder.t) (h : heap) (obj : value)
         (st st' : _Encoder.state) (r : ret),
    _Encoder.check_circular self = false ->
    _Encoder.dumps fuel self h obj st = (Ok r, st') ->
    st' = st.
Proof.
  intros fuel self h obj st st' r Hc Heq.
  pose proof (leaves_seen_dumps self h Hc fuel obj st) as Hseen.
  destruct (keeps_dumps fuel self h obj st) as [_ Hok].
  rewrite Heq in Hseen, Hok. destruct (Hok r eq_refl) as [Hlvl _].
  simpl in *. destruct st, st'; simpl in *. f_equal; [done | lia].
Qed.

Lemma X_unchecked_call_leaves_the_instance_witness :
  snd (_Encoder.dumps 3 (fst (_Encoder.init ascii_runtime kwargs_unchecked))
         heap_siblings (VRef 1) state0)
  = state0.
Proof.
  apply (X_unchecked_call_leaves_the_instance 3
           (fst (_Encoder.init ascii_runtime kwargs_unchecked))
           heap_siblings (VRef 1) state0 _ (RStr (u "[[], []]"))).
  - reflexivity.
  - reflexivity.
Defined.
